(** * LittlePaimon utilities: limiters, TTL cache, resource check and API
    wrappers

    A shallow embedding of [LittlePaimon/utils/tool.py] and of
    [hoshino/modules/Genshin_Paimon/get_data.py].  Mutable objects are
    modelled by explicit state passing; every clock reading is an explicit
    argument of the operation that performs it. *)

From Stdlib Require Import ZArith QArith Lqa Lia Ascii String.
From stdpp Require Import gmap strings pretty.

Open Scope Z_scope.

(** ** [collections.defaultdict]

    [d[key]] on a [defaultdict] returns the stored value, or stores and
    returns the factory's value when the key is missing. *)
Section defaultdict.
Context {K : Type} `{Countable K} {V : Type}.

Definition dd_getitem (factory : V) (key : K) (d : gmap K V)
  : V * gmap K V :=
  match d !! key with
  | Some v => (v, d)
  | None => (factory, <[key := factory]> d)
  end.

(** The value a read of [d[key]] yields. *)
Definition dd_value (factory : V) (key : K) (d : gmap K V) : V :=
  default factory (d !! key).
End defaultdict.

(** ** [class DailyNumberLimiter] *)
Module DailyNumberLimiter.

(** The fields of [datetime.datetime.now(tz)] the class can observe. *)
Record datetime := Datetime {
  year : Z; month : Z; day : Z;
  hour : Z; minute : Z; second : Z; microsecond : Z
}.

(** Calendar order on dates: [date_lt a b] when [b] is a later date. *)
Definition date_lt (a b : datetime) : Prop :=
  year a < year b
  \/ (year a = year b /\ month a < month b)
  \/ (year a = year b /\ month a = month b /\ day a < day b).

Section limiter.
Context {K : Type} `{Countable K}.

Record t := Limiter {
  today : Z;
  count : gmap K Z;
  max : Z
}.

(** [__init__(self, max_num)] *)
Definition init (max_num : Z) : t :=
  {| today := -1; count := ∅; max := max_num |}.

(** [check(self, key)]; [now] is [datetime.datetime.now(self.tz)].
    Subtracting [timedelta(hours=0)] leaves [now] as it is. *)
Definition check (now : datetime) (key : K) (self : t) : bool * t :=
  let d := day now in
  let self1 :=
    if decide (d ≠ today self)
    then {| today := d; count := ∅; max := max self |}
    else self in
  let '(v, c) := dd_getitem 0 key (count self1) in
  (bool_decide (v < max self1),
   {| today := today self1; count := c; max := max self1 |}).

(** [get_num(self, key)] *)
Definition get_num (key : K) (self : t) : Z * t :=
  let '(v, c) := dd_getitem 0 key (count self) in
  (v, {| today := today self; count := c; max := max self |}).

(** [increase(self, key, num=1)]: [self.count[key] += num] *)
Definition increase (key : K) (num : Z) (self : t) : t :=
  let '(v, c) := dd_getitem 0 key (count self) in
  {| today := today self; count := <[key := v + num]> c; max := max self |}.

(** [reset(self, key)] *)
Definition reset (key : K) (self : t) : t :=
  {| today := today self; count := <[key := 0]> (count self);
     max := max self |}.

(** The calls a client can make, and the value each one returns. *)
Inductive call :=
| Check (key : K)
| GetNum (key : K)
| Increase (key : K) (num : Z)
| Reset (key : K).

Inductive reply :=
| RBool (b : bool)
| RInt (n : Z)
| RNone.

(** One call served while the wall clock reads [now]; only [check]
    looks at the clock. *)
Definition serve (now : datetime) (c : call) (self : t) : reply * t :=
  match c with
  | Check key => let '(b, s) := check now key self in (RBool b, s)
  | GetNum key => let '(n, s) := get_num key self in (RInt n, s)
  | Increase key num => (RNone, increase key num self)
  | Reset key => (RNone, reset key self)
  end.

(** The count a read of [self.count[key]] yields. *)
Definition count_of (key : K) (self : t) : Z :=
  dd_value 0 key (count self).

Fixpoint increase_times (n : nat) (key : K) (self : t) : t :=
  match n with
  | O => self
  | S n' => increase_times n' key (increase key 1 self)
  end.
End limiter.
Arguments t K {_ _}.
End DailyNumberLimiter.

(** ** [class FreqLimiter]

    [time.time()] is a number of seconds; it is modelled by an exact
    rational, so the rounding of float arithmetic is not part of the
    model. *)
Module FreqLimiter.

(** [int(x)] on a real number: truncation toward zero. *)
Definition py_int (x : Q) : Z := Z.quot (Qnum x) (Z.pos (Qden x)).

Record t := Limiter {
  next_time : gmap string Q
}.

(** [__init__(self)]: [defaultdict(float)], whose factory yields [0.0]. *)
Definition init : t := {| next_time := ∅ |}.

(** [check(self, key)]; [now] is [time.time()]. *)
Definition check (now : Q) (key : string) (self : t) : bool * t :=
  let '(v, d) := dd_getitem 0%Q key (next_time self) in
  (Qle_bool v now, {| next_time := d |}).

(** [start(self, key, cooldown_time=0)]; [now] is [time.time()]. *)
Definition start (now : Q) (key : string) (cooldown_time : Z) (self : t) : t :=
  let d := if bool_decide (cooldown_time > 0) then cooldown_time else 60 in
  {| next_time := <[key := (now + inject_Z d)%Q]> (next_time self) |}.

(** [left(self, key)]; [now] is [time.time()]. *)
Definition left (now : Q) (key : string) (self : t) : Z * t :=
  let '(v, d) := dd_getitem 0%Q key (next_time self) in
  (py_int (v - now)%Q + 1, {| next_time := d |}).

(** The time a read of [self.next_time[key]] yields. *)
Definition next_allowed (key : string) (self : t) : Q :=
  dd_value 0%Q key (next_time self).

(** The calls a client can make, each with the clock reading it sees. *)
Inductive call :=
| Check (key : string)
| Start (key : string) (cooldown_time : Z)
| Left (key : string).

Definition serve (now : Q) (c : call) (self : t) : t :=
  match c with
  | Check key => (check now key self).2
  | Start key cooldown_time => start now key cooldown_time self
  | Left key => (left now key self).2
  end.

Fixpoint run (history : list (Q * call)) (self : t) : t :=
  match history with
  | [] => self
  | (now, c) :: rest => run rest (serve now c self)
  end.

Definition starts (key : string) (c : call) : bool :=
  match c with
  | Start k _ => bool_decide (k = key)
  | _ => false
  end.

(** No call of the history is a [start] of [key]. *)
Definition never_started (key : string) (history : list (Q * call)) : Prop :=
  forallb (fun nc => negb (starts key nc.2)) history = true.
End FreqLimiter.

(** ** Python objects, exceptions and effects *)

(** The argument objects the decorated functions of this repository
    receive. *)
Inductive pyval :=
| PNone
| PBool (b : bool)
| PInt (n : Z)
| PStr (s : string).

(** [str(v)], which is what [f'{v}'] renders. *)
Definition py_str (v : pyval) : string :=
  match v with
  | PNone => "None"
  | PBool true => "True"
  | PBool false => "False"
  | PInt n => pretty n
  | PStr s => s
  end.

(** The number a [bool] or an [int] stands for: [True] is 1 and [False]
    is 0. *)
Definition py_num (v : pyval) : option Z :=
  match v with
  | PBool b => Some (if b then 1 else 0)
  | PInt n => Some n
  | _ => None
  end.

(** [a == b] on these objects: numbers by their value, whichever of
    [bool] and [int] they are, strings by their text, [None] with itself
    only. *)
Definition py_eq (a b : pyval) : bool :=
  match a, b with
  | PNone, PNone => true
  | PStr s, PStr t => bool_decide (s = t)
  | PNone, _ | _, PNone | PStr _, _ | _, PStr _ => false
  | _, _ => bool_decide (py_num a = py_num b)
  end.

Inductive exn :=
| TypeError
| IndexError
| KeyError
| Failure (what : string)
| CancelledError
| KeyboardInterrupt.

(** Whether an exception is an instance of [Exception]:
    [asyncio.CancelledError] and [KeyboardInterrupt] derive from
    [BaseException] only. *)
Definition is_exception (e : exn) : bool :=
  match e with
  | CancelledError | KeyboardInterrupt => false
  | _ => true
  end.

Inductive outcome (A : Type) :=
| Return (a : A)
| Raise (e : exn).
Arguments Return {A} a.
Arguments Raise {A} e.

(** A computation over a state [S] that returns or raises. *)
Definition eff (S A : Type) : Type := S -> outcome A * S.

Definition eff_ret {S A} (a : A) : eff S A := fun s => (Return a, s).

Definition eff_bind {S A B} (m : eff S A) (k : A -> eff S B) : eff S B :=
  fun s =>
    match m s with
    | (Return a, s') => k a s'
    | (Raise e, s') => (Raise e, s')
    end.

Declare Scope eff_scope.
Delimit Scope eff_scope with eff.
Notation "x <~ m ;; k" := (eff_bind m (fun x => k))
  (at level 100, m at next level, right associativity) : eff_scope.

(** ** [cache(ttl)] *)
Module Cache.

(** A parameter of [inspect.signature(func)]: its name and its declared
    default.  The decorated functions declare plain (positional or
    keyword) parameters only. *)
Record param := Param {
  pname : string;
  pdefault : option pyval
}.

(** [inspect.signature(func).bind(args, kw)] followed by
    [apply_defaults()]: the arguments in declaration order, or [None]
    where [bind] raises [TypeError] (too many positional arguments, a
    parameter given twice, a parameter without value, an unknown
    keyword). *)
Fixpoint bind (sig : list param) (args : list pyval)
    (kw : gmap string pyval) : option (list (string * pyval)) :=
  match sig with
  | [] =>
      match args with
      | [] => if decide (kw = ∅) then Some [] else None
      | _ :: _ => None
      end
  | p :: sig' =>
      match args with
      | a :: args' =>
          match kw !! pname p with
          | Some _ => None
          | None =>
              match bind sig' args' kw with
              | Some r => Some ((pname p, a) :: r)
              | None => None
              end
          end
      | [] =>
          match kw !! pname p with
          | Some v =>
              match bind sig' [] (delete (pname p) kw) with
              | Some r => Some ((pname p, v) :: r)
              | None => None
              end
          | None =>
              match pdefault p with
              | Some d =>
                  match bind sig' [] kw with
                  | Some r => Some ((pname p, d) :: r)
                  | None => None
                  end
              | None => None
              end
          end
      end
  end.

(** [sep.join(parts)] *)
Fixpoint join (sep : string) (parts : list string) : string :=
  match parts with
  | [] => ""
  | [x] => x
  | x :: rest => x +:+ sep +:+ join sep rest
  end.

(** [f'{k}_{v}'] *)
Definition render (kv : string * pyval) : string :=
  kv.1 +:+ "_" +:+ py_str kv.2.

(** Two bound argument lists with the same names and, under each name,
    values that are equal by [==]. *)
Fixpoint values_equal (bound1 bound2 : list (string * pyval)) : bool :=
  match bound1, bound2 with
  | [], [] => true
  | (k1, v1) :: rest1, (k2, v2) :: rest2 =>
      bool_decide (k1 = k2) && py_eq v1 v2 && values_equal rest1 rest2
  | _, _ => false
  end.

(** ['|'.join([f'{k}_{v}' for k, v in bound.arguments.items()])] *)
Definition ins_key (bound : list (string * pyval)) : string :=
  join "|" (map render bound).

(** Whether a string holds the separator character. *)
Fixpoint has_bar (s : string) : bool :=
  match s with
  | EmptyString => false
  | String c s' => if decide (c = "|"%char) then true else has_bar s'
  end.

Section wrap.
Context {V W : Type}.
(** Python's [None] among the objects [func] can return. *)
Variable py_none : V.
(** [ttl], and every [datetime] and [timedelta], in microseconds. *)
Variable ttl : Z.
Variable sig : list param.
(** [await func(args, kw)], acting on the world outside the cache. *)
Variable func : list pyval -> gmap string pyval -> eff W V.

(** The dictionary [{"time": ..., "value": ...}] kept per key. *)
Record entry := Entry {
  time : option Z;
  value : V
}.

(** [cache_data], the world [func] acts on, and the log of the calls
    made to [func]. *)
Record state := State {
  cache_data : gmap string entry;
  world : W;
  calls : list (list pyval * gmap string pyval)
}.

Definition default_data : entry := {| time := None; value := py_none |}.

(** [not data['time'] or now - data['time'] > ttl] *)
Definition expired (data : entry) (now : Z) : bool :=
  match time data with
  | None => true
  | Some t => bool_decide (now - t > ttl)
  end.

(** An entry is fresh when it has a time and its age is at most [ttl]. *)
Definition fresh (data : entry) (now : Z) : Prop :=
  exists t, time data = Some t /\ now - t <= ttl.

(** [wrapped(args, kw)]; [now] is [datetime.datetime.now()].  The
    dictionary [data] is the one stored under [ins_key] when there is
    one, so the two assignments to it and the store into [cache_data]
    amount to one update of the entry; none of them is reached when
    [func] raises. *)
Definition wrapped (args : list pyval) (kw : gmap string pyval) (now : Z)
    (st : state) : outcome V * state :=
  match bind sig args kw with
  | None => (Raise TypeError, st)
  | Some bound =>
      let key := ins_key bound in
      let data := default default_data (cache_data st !! key) in
      if expired data now then
        let log := calls st ++ [(args, kw)] in
        match func args kw (world st) with
        | (Return v, w) =>
            let data1 := {| time := time data; value := v |} in
            let data2 := {| time := Some now; value := value data1 |} in
            (Return v,
             {| cache_data := <[key := data2]> (cache_data st);
                world := w; calls := log |})
        | (Raise e, w) =>
            (Raise e,
             {| cache_data := cache_data st; world := w; calls := log |})
        end
      else (Return (value data), st)
  end.

(** The canonical key of a call, when its arguments bind. *)
Definition key_of (args : list pyval) (kw : gmap string pyval)
    : option string :=
  ins_key <$> bind sig args kw.
End wrap.
Arguments entry V : clear implicits.
Arguments state V W : clear implicits.
End Cache.

(** ** [get_data.py]: the API wrappers *)
Module GetData.

(** The value of a request parameter or of a JSON body field. *)
Inductive reqval :=
| QVal (v : pyval)
| QList (items : list pyval).

Definition newline : string := String "010"%char "".

(** The message of the wrappers that draw on the public cookie pool. *)
Definition no_public_cookie_msg : string :=
  "现在派蒙没有可以用的cookie哦，可能是:" +:+ newline
  +:+ "1.公共cookie全都达到了每日30次上限" +:+ newline
  +:+ "2.公共池全都失效了或没有cookie" +:+ newline
  +:+ "让管理员使用 添加公共ck 吧!".

(** [uid[0]] on a string. *)
Definition first_char (uid : string) : outcome ascii :=
  match uid with
  | EmptyString => Raise IndexError
  | String c _ => Return c
  end.

(** ["cn_qd01" if uid[0] == '5' else "cn_gf01"] *)
Definition server_of (uid : string) : outcome string :=
  match first_char uid with
  | Return c => Return (if decide (c = "5"%char) then "cn_qd01" else "cn_gf01")
  | Raise e => Raise e
  end.

(** What a cookie collaborator hands back: [None] or a dictionary. *)
Definition cookie_reply : Type := option (gmap string string).

(** Truth value of a reply: [None] and the empty dictionary are falsy. *)
Definition truthy (c : cookie_reply) : bool :=
  match c with
  | None => false
  | Some d => negb (bool_decide (d = ∅))
  end.

(** [cookie['cookie']] *)
Definition cookie_field (c : cookie_reply) : outcome string :=
  match c with
  | None => Raise TypeError
  | Some d =>
      match d !! "cookie" with
      | Some v => Return v
      | None => Raise KeyError
      end
  end.

(** What a wrapper returns: a message, [None], or decoded JSON. *)
Inductive result (J : Type) :=
| Message (s : string)
| NoneResult
| Data (j : J).
Arguments Message {J} s.
Arguments NoneResult {J}.
Arguments Data {J} j.

(** [re.search(r'account_id=(\d{6,12})', cookie)].  The cookie is a
    header value, a text of ASCII characters, among which [\d] matches
    ['0'] to ['9']. *)
Definition is_digit (c : ascii) : bool :=
  (48 <=? nat_of_ascii c)%nat && (nat_of_ascii c <=? 57)%nat.

(** The longest run of digits at the head of [s], cut at [n]: what the
    greedy [\d{..,n}] takes. *)
Fixpoint take_digits (n : nat) (s : string) : string :=
  match n, s with
  | S n', String c s' => if is_digit c then String c (take_digits n' s') else ""
  | _, _ => ""
  end.

(** [s] without its head [prefix], when it has that head. *)
Fixpoint strip_prefix (prefix s : string) : option string :=
  match prefix, s with
  | EmptyString, _ => Some s
  | String a prefix', String b s' =>
      if decide (a = b) then strip_prefix prefix' s' else None
  | String _ _, EmptyString => None
  end.

(** The pattern matched at the head of [s]: group 1. *)
Definition match_account_id (s : string) : option string :=
  match strip_prefix "account_id=" s with
  | Some rest =>
      let digits := take_digits 12 rest in
      if (6 <=? String.length digits)%nat then Some digits else None
  | None => None
  end.

(** [re.search]: the match at the leftmost position that has one. *)
Fixpoint search_account_id (s : string) : option string :=
  match match_account_id s with
  | Some uid => Some uid
  | None =>
      match s with
      | EmptyString => None
      | String _ s' => search_account_id s'
      end
  end.

(** Every character is a digit. *)
Fixpoint digits_only (s : string) : bool :=
  match s with
  | EmptyString => true
  | String c s' => is_digit c && digits_only s'
  end.

(** Whether a string begins with a digit. *)
Definition digit_ahead (s : string) : bool :=
  match s with
  | EmptyString => false
  | String c _ => is_digit c
  end.

(** Every character is an ASCII character. *)
Fixpoint ascii_text (s : string) : bool :=
  match s with
  | EmptyString => true
  | String c s' => (nat_of_ascii c <? 128)%nat && ascii_text s'
  end.

(** The modules the wrappers call into: the world [W] they act on, and
    the types of headers, of responses and of decoded JSON. *)
Class Collaborators (W Hd Rs J : Type) := {
  (** [get_use_cookie(user_id, uid=uid, action=action)] *)
  get_use_cookie : pyval -> string -> string -> eff W cookie_reply;
  (** [get_own_cookie(uid, action=action)] *)
  get_own_cookie : string -> string -> eff W cookie_reply;
  (** [update_cookie_cache(cookie, uid, 'uid')] *)
  update_cookie_cache : string -> string -> string -> eff W unit;
  (** [get_headers(q=q, cookie=cookie)] *)
  get_headers_q : string -> string -> eff W Hd;
  (** [get_headers(b=b, cookie=cookie)] *)
  get_headers_b : list (string * reqval) -> string -> eff W Hd;
  (** [aiorequests.get(url=url, headers=headers, params=params)] *)
  http_get : string -> Hd -> list (string * reqval) -> eff W Rs;
  (** [aiorequests.post(url=url, headers=headers, json=json)] *)
  http_post : string -> Hd -> list (string * reqval) -> eff W Rs;
  (** [res.json()] *)
  json : Rs -> eff W J;
  (** [check_retcode(data, cookie, uid)], as a truth value *)
  check_retcode : J -> cookie_reply -> string -> eff W bool;
  (** the builtin [int(month)] *)
  int_of : pyval -> outcome Z
}.

Section wrappers.
Context {W Hd Rs J : Type} `{!Collaborators W Hd Rs J}.
Local Open Scope eff_scope.

(** A pure step that returns or raises. *)
Definition lift {A} (o : outcome A) : eff W A := fun w => (o, w).

(** [while True: body], where an iteration that yields [Some r] is a
    [return r] and one that yields [None] falls through to the next
    iteration.  [None] from [retry] is an exhausted fuel. *)
Fixpoint retry (fuel : nat) (body : eff W (option (result J))) (w : W)
    : option (outcome (result J) * W) :=
  match fuel with
  | O => None
  | S fuel' =>
      match body w with
      | (Raise e, w') => Some (Raise e, w')
      | (Return (Some r), w') => Some (Return r, w')
      | (Return None, w') => retry fuel' body w'
      end
  end.

(** The statements before a loop, then the loop. *)
Definition with_server (uid : string)
    (k : string -> W -> option (outcome (result J) * W)) (w : W)
    : option (outcome (result J) * W) :=
  match server_of uid with
  | Return server_id => k server_id w
  | Raise e => Some (Raise e, w)
  end.

(** One iteration of the loop of [get_abyss_data]. *)
Definition abyss_attempt (user_id : pyval) (uid : string)
    (schedule_type : pyval) (server_id : string)
    : eff W (option (result J)) :=
  let url :=
    "https://api-takumi.mihoyo.com/game_record/app/genshin/api/spiralAbyss" in
  let params :=
    [("schedule_type", QVal schedule_type); ("role_id", QVal (PStr uid));
     ("server", QVal (PStr server_id))] in
  cookie <~ get_use_cookie user_id uid "查询深渊" ;;
  if negb (truthy cookie) then eff_ret (Some (Message no_public_cookie_msg))
  else
    ck <~ lift (cookie_field cookie) ;;
    headers <~ get_headers_q
      ("role_id=" +:+ uid +:+ "&schedule_type=" +:+ py_str schedule_type
       +:+ "&server=" +:+ server_id) ck ;;
    res <~ http_get url headers params ;;
    data <~ json res ;;
    ok <~ check_retcode data cookie uid ;;
    eff_ret (if ok then Some (Data data) else None).

(** [get_abyss_data(user_id, uid, schedule_type="1", use_cache=True)] *)
Definition get_abyss_data (fuel : nat) (user_id : pyval) (uid : string)
    (schedule_type : pyval) (use_cache : pyval)
    : W -> option (outcome (result J) * W) :=
  with_server uid (fun server_id =>
    retry fuel (abyss_attempt user_id uid schedule_type server_id)).

(** [get_daily_note_data(uid)] *)
Definition get_daily_note_data (uid : string) : eff W (result J) :=
  let url :=
    "https://api-takumi.mihoyo.com/game_record/app/genshin/api/dailyNote" in
  server_id <~ lift (server_of uid) ;;
  cookie <~ get_own_cookie uid "查询实时便签" ;;
  if negb (truthy cookie) then
    eff_ret (Message ("你的uid" +:+ uid
      +:+ "没有绑定对应的cookie,使用ysb绑定才能用实时便签哦!"))
  else
    ck <~ lift (cookie_field cookie) ;;
    _ <~ update_cookie_cache ck uid "uid" ;;
    ck' <~ lift (cookie_field cookie) ;;
    headers <~ get_headers_q
      ("role_id=" +:+ uid +:+ "&server=" +:+ server_id) ck' ;;
    res <~ http_get url headers
      [("server", QVal (PStr server_id)); ("role_id", QVal (PStr uid))] ;;
    data <~ json res ;;
    eff_ret (Data data).

(** One iteration of the loop of [get_player_card_data]. *)
Definition player_card_attempt (user_id : pyval) (uid : string)
    (server_id : string) : eff W (option (result J)) :=
  let url :=
    "https://api-takumi.mihoyo.com/game_record/app/genshin/api/index" in
  let params :=
    [("server", QVal (PStr server_id)); ("role_id", QVal (PStr uid))] in
  cookie <~ get_use_cookie user_id uid "查询原神卡片" ;;
  if negb (truthy cookie) then eff_ret (Some (Message no_public_cookie_msg))
  else
    ck <~ lift (cookie_field cookie) ;;
    headers <~ get_headers_q
      ("role_id=" +:+ uid +:+ "&server=" +:+ server_id) ck ;;
    res <~ http_get url headers params ;;
    data <~ json res ;;
    ok <~ check_retcode data cookie uid ;;
    eff_ret (if ok then Some (Data data) else None).

(** [get_player_card_data(user_id, uid, use_cache=True)] *)
Definition get_player_card_data (fuel : nat) (user_id : pyval)
    (uid : string) (use_cache : pyval)
    : W -> option (outcome (result J) * W) :=
  with_server uid (fun server_id =>
    retry fuel (player_card_attempt user_id uid server_id)).

(** One iteration of the loop of [get_chara_detail_data]. *)
Definition chara_detail_attempt (user_id : pyval) (uid : string)
    (server_id : string) : eff W (option (result J)) :=
  let json_data :=
    [("server", QVal (PStr server_id)); ("role_id", QVal (PStr uid));
     ("character_ids", QList [])] in
  let url :=
    "https://api-takumi.mihoyo.com/game_record/app/genshin/api/character" in
  cookie <~ get_use_cookie user_id uid "查询角色详情" ;;
  if negb (truthy cookie) then eff_ret (Some (Message no_public_cookie_msg))
  else
    ck <~ lift (cookie_field cookie) ;;
    headers <~ get_headers_b json_data ck ;;
    res <~ http_post url headers json_data ;;
    data <~ json res ;;
    ok <~ check_retcode data cookie uid ;;
    eff_ret (if ok then Some (Data data) else None).

(** [get_chara_detail_data(user_id, uid, use_cache=True)] *)
Definition get_chara_detail_data (fuel : nat) (user_id : pyval)
    (uid : string) (use_cache : pyval)
    : W -> option (outcome (result J) * W) :=
  with_server uid (fun server_id =>
    retry fuel (chara_detail_attempt user_id uid server_id)).

(** [get_chara_skill_data(uid, chara_id, use_cache=True)] *)
Definition get_chara_skill_data (uid : string) (chara_id : pyval)
    (use_cache : pyval) : eff W (result J) :=
  let url :=
    "https://api-takumi.mihoyo.com/event/e20200928calculate/v1/sync/avatar/detail" in
  server_id <~ lift (server_of uid) ;;
  cookie <~ get_own_cookie uid "查询角色天赋" ;;
  if negb (truthy cookie) then eff_ret NoneResult
  else
    ck <~ lift (cookie_field cookie) ;;
    _ <~ update_cookie_cache ck uid "uid" ;;
    ck' <~ lift (cookie_field cookie) ;;
    headers <~ get_headers_q
      ("uid=" +:+ uid +:+ "&region=" +:+ server_id +:+ "&avatar_id="
       +:+ py_str chara_id) ck' ;;
    res <~ http_get url headers
      [("region", QVal (PStr server_id)); ("uid", QVal (PStr uid));
       ("avatar_id", QVal chara_id)] ;;
    data <~ json res ;;
    eff_ret (Data data).

(** [get_monthinfo_data(uid, month, use_cache=True)]; without a
    [return] after a failed [check_retcode] the result is [None]. *)
Definition get_monthinfo_data (uid : string) (month : pyval)
    (use_cache : pyval) : eff W (result J) :=
  let url := "https://hk4e-api.mihoyo.com/event/ys_ledger/monthInfo" in
  server_id <~ lift (server_of uid) ;;
  cookie <~ get_own_cookie uid "查询每月札记" ;;
  if negb (truthy cookie) then
    eff_ret (Message ("你的uid" +:+ uid
      +:+ "没有绑定对应的cookie,使用ysb绑定才能用每月札记哦!"))
  else
    ck <~ lift (cookie_field cookie) ;;
    _ <~ update_cookie_cache ck uid "uid" ;;
    ck' <~ lift (cookie_field cookie) ;;
    headers <~ get_headers_q
      ("month=" +:+ py_str month +:+ "&bind_uid=" +:+ uid
       +:+ "&bind_region=" +:+ server_id) ck' ;;
    m <~ lift (int_of month) ;;
    res <~ http_get url headers
      [("month", QVal (PInt m)); ("bind_uid", QVal (PStr uid));
       ("bind_region", QVal (PStr server_id))] ;;
    data <~ json res ;;
    ok <~ check_retcode data cookie uid ;;
    eff_ret (if ok then Data data else NoneResult).

(** [get_bind_game(cookie)]: [None], or the pair of the decoded JSON and
    the uid found in the cookie. *)
Definition get_bind_game (cookie : string) : eff W (option (J * string)) :=
  match search_account_id cookie with
  | None => eff_ret None
  | Some uid =>
      let url :=
        "https://api-takumi.mihoyo.com/game_record/card/wapi/getGameRecordCard" in
      headers <~ get_headers_q ("uid=" +:+ uid) cookie ;;
      res <~ http_get url headers [("uid", QVal (PStr uid))] ;;
      data <~ json res ;;
      eff_ret (Some (data, uid))
  end.

(** [n] iterations in a row that end without a [return], leading from
    world [w] to world [w']. *)
Fixpoint falls_through (n : nat) (body : eff W (option (result J)))
    (w w' : W) : Prop :=
  match n with
  | O => w = w'
  | S n' => exists w1, body w = (Return None, w1) /\ falls_through n' body w1 w'
  end.
End wrappers.
End GetData.

(** ** [check_resource] *)
Module Resource.

(** A field value of a manifest entry: [null], a boolean, an integer or a
    string.  The manifest is a list of objects with such fields; other
    JSON is outside this model. *)
Inductive jval :=
| JNull
| JBool (b : bool)
| JInt (n : Z)
| JStr (s : string).

(** [bool(v)] *)
Definition jtruthy (v : jval) : bool :=
  match v with
  | JNull => false
  | JBool b => b
  | JInt n => negb (bool_decide (n = 0))
  | JStr s => negb (bool_decide (s = ""))
  end.

(** [text == v] for a string [text]. *)
Definition str_eq (text : string) (v : jval) : bool :=
  match v with
  | JStr s => bool_decide (text = s)
  | _ => false
  end.

(** [d[key]] on a JSON object. *)
Definition getitem (d : gmap string jval) (key : string) : outcome jval :=
  match d !! key with
  | Some v => Return v
  | None => Raise KeyError
  end.

(** The operand of [RESOURCE_BASE_PATH / v] and of [v.split]: a string,
    or [TypeError]. *)
Definition as_str (v : jval) : outcome string :=
  match v with
  | JStr s => Return s
  | _ => Raise TypeError
  end.

(** [s.split('.')[-1]]: what follows the last dot, the whole of [s] when
    it has none.  [cur] is the part read since the last dot. *)
Fixpoint last_part (s cur : string) : string :=
  match s with
  | EmptyString => cur
  | String c s' =>
      if decide (c = "."%char) then last_part s' ""
      else last_part s' (cur +:+ String c "")
  end.

(** Whether a string holds a dot. *)
Fixpoint has_dot (s : string) : bool :=
  match s with
  | EmptyString => false
  | String c s' => if decide (c = "."%char) then true else has_dot s'
  end.

(** The [exclude_json] argument of the download of [name]. *)
Definition exclude_json (name : string) : bool :=
  negb (bool_decide (last_part name "" = "json")).

(** What the routine does to the world around it. *)
Inductive action :=
| Unlink (path : string)
| Download (url path : string) (exclude_json : bool)
| Sleep
| Info (message : string)
| Warning (message : string).

(** The modules and the file system the routine calls into. *)
Class Host (W : Type) := {
  (** [config.github_proxy] *)
  github_proxy : string;
  (** [aiorequests.get(url, follow_redirects=True)] and [.json()] on it:
      a list of JSON objects *)
  fetch_list : string -> eff W (list (gmap string jval));
  (** [RESOURCE_BASE_PATH / name] *)
  resource_path : string -> string;
  (** [file_path.exists()] *)
  path_exists : string -> eff W bool;
  (** [file_path.read_bytes()] *)
  read_bytes : string -> eff W string;
  (** [hashlib.md5(data).hexdigest()] *)
  md5_hex : string -> string;
  (** [file_path.unlink()] *)
  unlink : string -> eff W unit;
  (** [aiorequests.download(url=url, save_path=path, exclude_json=b)] *)
  download : string -> string -> bool -> eff W unit;
  (** [asyncio.sleep(0.5)] *)
  sleep : eff W unit;
  (** [logger.info('资源检查', message)] *)
  log_info : string -> eff W unit;
  (** [logger.warning('资源检查', message)] *)
  log_warning : string -> eff W unit
}.

Definition manifest_url : string :=
  "https://raw.githubusercontent.com/CMHopeSunshine/LittlePaimonRes/main/resources_list.json".

Definition resource_url : string :=
  "https://raw.githubusercontent.com/CMHopeSunshine/LittlePaimonRes/main/".

Definition msg_start : string := "开始检查资源".

Definition msg_no_list : string :=
  "读取资源列表<r>失败</r>，请尝试更换<m>github资源地址</m>".

Definition msg_failed (name : string) : string :=
  "下载<m>" +:+ name +:+ "</m>时<r>出错</r>，请尝试更换<m>github资源地址</m>".

Definition msg_done : string := "<g>资源下载完成</g>".

Definition msg_intact : string := "<g>资源完好，无需下载</g>".

Section routine.
Context {W : Type} `{!Host W}.
Local Open Scope eff_scope.

Definition lift {A} (o : outcome A) : eff W A := fun w => (o, w).

(** [try: body / except Exception: handler]: an exception that is no
    instance of [Exception] passes through. *)
Definition try_except {A} (body handler : eff W A) : eff W A :=
  fun w =>
    match body w with
    | (Return a, w') => (Return a, w')
    | (Raise e, w') => if is_exception e then handler w' else (Raise e, w')
    end.

(** The test at the head of the loop body: [true] for [continue].  A file
    that exists is kept when the entry does not lock it or when its MD5 is
    the entry's hash, and is deleted otherwise. *)
Definition keep_file (resource : gmap string jval) (file_path : string)
    : eff W bool :=
  present <~ path_exists file_path ;;
  if present then
    lock <~ lift (getitem resource "lock") ;;
    if negb (jtruthy lock) then eff_ret true
    else
      data <~ read_bytes file_path ;;
      hash <~ lift (getitem resource "hash") ;;
      if str_eq (md5_hex data) hash then eff_ret true
      else
        _ <~ unlink file_path ;;
        eff_ret false
  else eff_ret false.

(** The [try] statement of the loop body; [flag = True] stands before
    it, so [true] comes out of both of its ways. *)
Definition fetch_file (name file_path : string) : eff W bool :=
  try_except
    (_ <~ download (github_proxy +:+ resource_url +:+ name) file_path
            (exclude_json name) ;;
     _ <~ sleep ;;
     eff_ret true)
    (_ <~ log_warning (msg_failed name) ;;
     eff_ret true).

(** The body of the loop, from [flag] before it to [flag] after it. *)
Definition sync_entry (resource : gmap string jval) (flag : bool)
    : eff W bool :=
  path <~ lift (getitem resource "path") ;;
  name <~ lift (as_str path) ;;
  let file_path := resource_path name in
  keep <~ keep_file resource file_path ;;
  if keep then eff_ret flag else fetch_file name file_path.

(** [for resource in resource_list: ...] *)
Fixpoint sync_all (resource_list : list (gmap string jval)) (flag : bool)
    : eff W bool :=
  match resource_list with
  | [] => eff_ret flag
  | resource :: rest =>
      flag' <~ sync_entry resource flag ;;
      sync_all rest flag'
  end.

(** [check_resource()] *)
Definition check_resource : eff W unit :=
  _ <~ log_info msg_start ;;
  fetched <~ try_except
    (resource_list <~ fetch_list (github_proxy +:+ manifest_url) ;;
     eff_ret (Some resource_list))
    (_ <~ log_info msg_no_list ;;
     eff_ret None) ;;
  match fetched with
  | None => eff_ret tt
  | Some resource_list =>
      flag <~ sync_all resource_list false ;;
      if flag then log_info msg_done else log_info msg_intact
  end.
End routine.

(** A host that keeps, beside its world, the list of what was done to
    it. *)
Definition noted {W A} (a : action) (m : eff W A)
    : eff (W * list action) A :=
  fun wt =>
    match m wt.1 with
    | (r, w') => (r, (w', wt.2 ++ [a]))
    end.

Definition unnoted {W A} (m : eff W A) : eff (W * list action) A :=
  fun wt =>
    match m wt.1 with
    | (r, w') => (r, (w', wt.2))
    end.

Definition traced {W} (H : Host W) : Host (W * list action) :=
  {| github_proxy := github_proxy;
     fetch_list := fun url => unnoted (fetch_list url);
     resource_path := resource_path;
     path_exists := fun path => unnoted (path_exists path);
     read_bytes := fun path => unnoted (read_bytes path);
     md5_hex := md5_hex;
     unlink := fun path => noted (Unlink path) (unlink path);
     download := fun url path b => noted (Download url path b) (download url path b);
     sleep := noted Sleep sleep;
     log_info := fun message => noted (Info message) (log_info message);
     log_warning := fun message =>
       noted (Warning message) (log_warning message) |}.

(** An entry with the three fields the routine reads, the path a
    string. *)
Definition well_formed (resource : gmap string jval) : Prop :=
  (exists name, resource !! "path" = Some (JStr name))
  /\ is_Some (resource !! "lock")
  /\ is_Some (resource !! "hash").

(** What a loop body that ran to its end may have done for the entry of
    [name]: nothing, or a download of its file, after deleting the file or
    not, followed by the pause, the warning, or both. *)
Definition entry_block {W} `{!Host W} (name : string) (block : list action)
    : Prop :=
  block = []
  \/ exists removed tail,
       (removed = [] \/ removed = [Unlink (resource_path name)])
       /\ (tail = [Sleep] \/ tail = [Warning (msg_failed name)]
           \/ tail = [Sleep; Warning (msg_failed name)])
       /\ block
          = removed
            ++ Download (github_proxy +:+ resource_url +:+ name)
                 (resource_path name)
                 (exclude_json name)
               :: tail.

(** Whether a block holds anything. *)
Definition busy (block : list action) : bool :=
  match block with
  | [] => false
  | _ :: _ => true
  end.

End Resource.

(** ** Concrete inputs

    Clock readings and states the properties below are evaluated on. *)

Definition jan31 : DailyNumberLimiter.datetime :=
  DailyNumberLimiter.Datetime 2024 1 31 23 59 0 0.

Definition feb01 : DailyNumberLimiter.datetime :=
  DailyNumberLimiter.Datetime 2024 2 1 0 1 0 0.

Definition feb29 : DailyNumberLimiter.datetime :=
  DailyNumberLimiter.Datetime 2024 2 29 12 0 0 0.

Definition mar29 : DailyNumberLimiter.datetime :=
  DailyNumberLimiter.Datetime 2024 3 29 12 0 0 0.

(** A limiter with quota 30 on which ["u1"] was counted once at [now]. *)
Definition counted_once (now : DailyNumberLimiter.datetime)
    : DailyNumberLimiter.t string :=
  DailyNumberLimiter.increase "u1" 1
    (DailyNumberLimiter.check now "u1" (DailyNumberLimiter.init 30)).2.

(** A cooldown limiter on which ["u1"] was checked and ["u2"] was started
    for 5 seconds, ten seconds later. *)
Definition freq_history : list (Q * FreqLimiter.call) :=
  [(1700000000%Q, FreqLimiter.Check "u1");
   (1700000010%Q, FreqLimiter.Start "u2" 5)].

Definition freq_state : FreqLimiter.t :=
  FreqLimiter.run freq_history FreqLimiter.init.

(** The signature of [get_abyss_data(user_id, uid, schedule_type="1",
    use_cache=True)]. *)
Definition abyss_sig : list Cache.param :=
  [Cache.Param "user_id" None; Cache.Param "uid" None;
   Cache.Param "schedule_type" (Some (PStr "1"));
   Cache.Param "use_cache" (Some (PBool true))].

(** [get_abyss_data(1, "100000001")] *)
Definition call_default : list pyval * gmap string pyval :=
  ([PInt 1; PStr "100000001"], ∅).

(** [get_abyss_data(1, "100000001", 1)] *)
Definition call_int_schedule : list pyval * gmap string pyval :=
  ([PInt 1; PStr "100000001"; PInt 1], ∅).

(** [get_abyss_data(1, "100000001", "1", True)] *)
Definition call_cache_true : list pyval * gmap string pyval :=
  ([PInt 1; PStr "100000001"; PStr "1"; PBool true], ∅).

(** [get_abyss_data(1, "100000001", "1", 1)] *)
Definition call_cache_one : list pyval * gmap string pyval :=
  ([PInt 1; PStr "100000001"; PStr "1"; PInt 1], ∅).

(** [get_abyss_data(1, "100000001", "2")] *)
Definition call_positional : list pyval * gmap string pyval :=
  ([PInt 1; PStr "100000001"; PStr "2"], ∅).

(** [get_abyss_data(1, schedule_type="2", uid="100000001")] *)
Definition call_keyword : list pyval * gmap string pyval :=
  ([PInt 1], {[ "schedule_type" := PStr "2"; "uid" := PStr "100000001" ]}).

(** [timedelta(hours=1)] in microseconds. *)
Definition one_hour : Z := 3600000000.

(** A wrapped function that raises on its first call and afterwards
    returns the number of calls made before; the world is that number. *)
Definition flaky (args : list pyval) (kw : gmap string pyval)
    : eff nat pyval :=
  fun n =>
    match n with
    | O => (Raise (Failure "timed out"), S n)
    | S _ => (Return (PInt (Z.of_nat n)), S n)
    end.

(** An empty cache in front of a world that made [n] calls. *)
Definition cold (n : nat) : Cache.state pyval nat :=
  {| Cache.cache_data := ∅; Cache.world := n; Cache.calls := [] |}.

(** Collaborators over a world that counts the cookies handed out: the
    public pool holds [pool] cookies, each of which the API rejects; no
    uid has a cookie of its own. *)
Definition rejected_pool (pool : nat) : GetData.Collaborators nat unit unit unit :=
  {| GetData.get_use_cookie := fun _ _ _ n =>
       if (n <? pool)%nat
       then (Return (Some {[ "cookie" := "account_id=1234567" ]}), S n)
       else (Return None, n);
     GetData.get_own_cookie := fun _ _ n => (Return None, n);
     GetData.update_cookie_cache := fun _ _ _ n => (Return (), n);
     GetData.get_headers_q := fun _ _ n => (Return (), n);
     GetData.get_headers_b := fun _ _ n => (Return (), n);
     GetData.http_get := fun _ _ _ n => (Return (), n);
     GetData.http_post := fun _ _ _ n => (Return (), n);
     GetData.json := fun _ n => (Return (), n);
     GetData.check_retcode := fun _ _ _ n => (Return false, n);
     GetData.int_of := fun v =>
       match v with
       | PInt n => Return n
       | _ => Raise TypeError
       end |}.

(** Collaborators whose cookie sources answer the [n]-th request with
    [reply n], and whose API rejects every cookie; the world counts the
    requests for a cookie. *)
Definition pool_answering (reply : nat -> outcome GetData.cookie_reply)
    : GetData.Collaborators nat unit unit unit :=
  {| GetData.get_use_cookie := fun _ _ _ n => (reply n, S n);
     GetData.get_own_cookie := fun _ _ n => (reply n, S n);
     GetData.update_cookie_cache := fun _ _ _ n => (Return (), n);
     GetData.get_headers_q := fun _ _ n => (Return (), n);
     GetData.get_headers_b := fun _ _ n => (Return (), n);
     GetData.http_get := fun _ _ _ n => (Return (), n);
     GetData.http_post := fun _ _ _ n => (Return (), n);
     GetData.json := fun _ n => (Return (), n);
     GetData.check_retcode := fun _ _ _ n => (Return false, n);
     GetData.int_of := fun v =>
       match v with
       | PInt n => Return n
       | _ => Raise TypeError
       end |}.

(** A pool that never runs dry. *)
Definition endless_pool : GetData.Collaborators nat unit unit unit :=
  pool_answering (fun _ => Return (Some {[ "cookie" := "account_id=1234567" ]})).

(** A pool whose rows lack the ['cookie'] field. *)
Definition fieldless_pool : GetData.Collaborators nat unit unit unit :=
  pool_answering (fun _ => Return (Some {[ "type" := "public" ]})).

(** A pool whose store cannot be read. *)
Definition failing_pool : GetData.Collaborators nat unit unit unit :=
  pool_answering (fun _ => Raise (Failure "database is locked")).

(** A host whose world is the files on disk, by path.  The manifest
    request answers [manifest]; a download of [path] stores [remote path],
    or fails where there is none; the digest of a text stands in for its
    MD5. *)
Definition disk_host (manifest : outcome (list (gmap string Resource.jval)))
    (remote : string -> option string) (digest : string -> string)
    : Resource.Host (gmap string string) :=
  {| Resource.github_proxy := "https://ghproxy.com/";
     Resource.fetch_list := fun _ files => (manifest, files);
     Resource.resource_path := fun name => "resources/" +:+ name;
     Resource.path_exists := fun path files =>
       (Return (bool_decide (is_Some (files !! path))), files);
     Resource.read_bytes := fun path files =>
       match files !! path with
       | Some data => (Return data, files)
       | None => (Raise (Failure "FileNotFoundError"), files)
       end;
     Resource.md5_hex := digest;
     Resource.unlink := fun path files => (Return (), delete path files);
     Resource.download := fun _ path _ files =>
       match remote path with
       | Some data => (Return (), <[path := data]> files)
       | None => (Raise (Failure "ReadTimeout"), files)
       end;
     Resource.sleep := fun files => (Return (), files);
     Resource.log_info := fun _ files => (Return (), files);
     Resource.log_warning := fun _ files => (Return (), files) |}.

(** A manifest entry. *)
Definition manifest_entry (path : string) (lock : bool) (hash : string)
    : gmap string Resource.jval :=
  {[ "path" := Resource.JStr path; "lock" := Resource.JBool lock;
     "hash" := Resource.JStr hash ]}.

(** Two files listed, the second one locked; no download gets through. *)
Definition offline_host : Resource.Host (gmap string string) :=
  disk_host
    (Return [manifest_entry "icon/a.png" false "h-a";
             manifest_entry "data/b.json" true "h-b"])
    (fun _ => None) (fun data => "h-" +:+ data).

(** The disk holds a stale copy of each file. *)
Definition stale_disk : gmap string string :=
  {[ "resources/icon/a.png" := "old-a"; "resources/data/b.json" := "old-b" ]}.

(** * Properties *)

(** ** [defaultdict] reads *)
Section defaultdict_facts.
Context {K : Type} `{Countable K} {V : Type}.
Implicit Types (d : gmap K V) (key k : K) (factory : V).

Lemma dd_getitem_value factory key d :
  (dd_getitem factory key d).1 = dd_value factory key d.
Proof. unfold dd_getitem, dd_value. by destruct (d !! key). Qed.

Lemma dd_getitem_store factory key d k :
  dd_value factory k (dd_getitem factory key d).2 = dd_value factory k d.
Proof.
  unfold dd_getitem, dd_value.
  destruct (d !! key) eqn:E; simpl; [done|].
  destruct (decide (key = k)) as [->|Hne].
  - by rewrite lookup_insert_eq, E.
  - by rewrite lookup_insert_ne.
Qed.

Lemma dd_value_empty factory k : dd_value factory k (∅ : gmap K V) = factory.
Proof. unfold dd_value. by rewrite lookup_empty. Qed.

Lemma dd_value_insert factory key v d k :
  dd_value factory k (<[key := v]> d)
  = if decide (key = k) then v else dd_value factory k d.
Proof.
  unfold dd_value. case_decide as E.
  - subst. by rewrite lookup_insert_eq.
  - by rewrite lookup_insert_ne.
Qed.
End defaultdict_facts.

(** ** [DailyNumberLimiter] *)
Section daily_facts.
Import DailyNumberLimiter.
Context {K : Type} `{Countable K}.
Implicit Types (self : t K) (key k : K) (now : datetime).

Lemma get_num_spec key self :
  (get_num key self).1 = count_of key self
  /\ today (get_num key self).2 = today self
  /\ max (get_num key self).2 = max self
  /\ forall k, count_of k (get_num key self).2 = count_of k self.
Proof.
  unfold get_num, count_of.
  pose proof (dd_getitem_value 0 key (count self)) as Hv.
  pose proof (dd_getitem_store 0 key (count self)) as Hs.
  destruct (dd_getitem 0 key (count self)) as [v c]; simpl in *.
  auto.
Qed.

Lemma increase_spec key num self :
  today (increase key num self) = today self
  /\ max (increase key num self) = max self
  /\ forall k, count_of k (increase key num self)
       = if decide (key = k) then count_of key self + num
         else count_of k self.
Proof.
  unfold increase, count_of.
  pose proof (dd_getitem_value 0 key (count self)) as Hv.
  pose proof (dd_getitem_store 0 key (count self)) as Hs.
  destruct (dd_getitem 0 key (count self)) as [v c]; simpl in *.
  repeat split. intros k. rewrite dd_value_insert.
  case_decide; [by rewrite Hv | apply Hs].
Qed.

Lemma reset_spec key self :
  today (reset key self) = today self
  /\ max (reset key self) = max self
  /\ forall k, count_of k (reset key self)
       = if decide (key = k) then 0 else count_of k self.
Proof.
  unfold reset, count_of; simpl. repeat split.
  intros k. apply dd_value_insert.
Qed.

(** [check] on a day that is the stored one: no rollover. *)
Lemma check_same_day now key self :
  day now = today self ->
  (check now key self).1 = bool_decide (count_of key self < max self)
  /\ today (check now key self).2 = today self
  /\ max (check now key self).2 = max self
  /\ forall k, count_of k (check now key self).2 = count_of k self.
Proof.
  intros Hday. unfold check, count_of.
  destruct (decide (day now ≠ today self)) as [Hne|_]; [done|].
  pose proof (dd_getitem_value 0 key (count self)) as Hv.
  pose proof (dd_getitem_store 0 key (count self)) as Hs.
  destruct (dd_getitem 0 key (count self)) as [v c]; simpl in *.
  subst v. auto.
Qed.

(** [check] on a day that is not the stored one: rollover first. *)
Lemma check_new_day now key self :
  day now ≠ today self ->
  (check now key self).1 = bool_decide (0 < max self)
  /\ today (check now key self).2 = day now
  /\ max (check now key self).2 = max self
  /\ forall k, count_of k (check now key self).2 = 0.
Proof.
  intros Hday. unfold check, count_of.
  destruct (decide (day now ≠ today self)) as [_|Heq]; [|done].
  simpl.
  pose proof (dd_getitem_value 0 key (∅ : gmap K Z)) as Hv.
  pose proof (dd_getitem_store 0 key (∅ : gmap K Z)) as Hs.
  destruct (dd_getitem 0 key (∅ : gmap K Z)) as [v c]; simpl in *.
  rewrite dd_value_empty in Hv. subst v.
  repeat split. intros k. rewrite Hs. apply dd_value_empty.
Qed.

Lemma increase_times_spec n key self :
  today (increase_times n key self) = today self
  /\ max (increase_times n key self) = max self
  /\ count_of key (increase_times n key self)
     = count_of key self + Z.of_nat n.
Proof.
  revert self. induction n as [|n IH]; intros self; simpl.
  - repeat split. lia.
  - destruct (IH (increase key 1 self)) as (Ht & Hm & Hc).
    destruct (increase_spec key 1 self) as (Ht' & Hm' & Hc').
    rewrite Ht, Hm, Hc, Ht', Hm', Hc'.
    rewrite decide_True by done. repeat split. lia.
Qed.
(** C1 (as amended): [check] is the operation that applies the rollover.
    Whenever the current day of the month differs from [self.today],
    [check] clears all counts and stores the new day before it compares,
    so it answers from a count of 0 and every count reads 0 afterwards,
    through [get_num] too.  [get_num], [increase] and [reset] do not look
    at the clock: they keep [self.today] and work on the stored counts. *)
Theorem check_applies_rollover now key self :
  day now ≠ today self ->
  let self' := (check now key self).2 in
  (check now key self).1 = bool_decide (0 < max self)
  /\ today self' = day now
  /\ (forall k, count_of k self' = 0)
  /\ (forall k, (get_num k self').1 = 0)
  /\ (forall k, (get_num k self).1 = count_of k self
                /\ today (get_num k self).2 = today self)
  /\ (forall k num, count_of k (increase k num self) = count_of k self + num
                    /\ today (increase k num self) = today self)
  /\ (forall k, count_of k (reset k self) = 0
                /\ today (reset k self) = today self).
Proof.
  intros Hday self'.
  destruct (check_new_day now key self Hday) as (Hb & Ht & _ & Hc).
  split; [exact Hb|]. split; [exact Ht|]. split; [exact Hc|].
  split; [|split; [|split]].
  - intros k. destruct (get_num_spec k self') as (-> & _). apply Hc.
  - intros k. destruct (get_num_spec k self) as (? & ? & _). done.
  - intros k num. destruct (increase_spec k num self) as (? & _ & Hi).
    split; [|done]. rewrite Hi. by rewrite decide_True.
  - intros k. destruct (reset_spec k self) as (? & _ & Hr).
    split; [|done]. rewrite Hr. by rewrite decide_True.
Qed.

(** C6: for [max > 0], from a state of the current day in which the key
    counts 0, [max] calls of [increase(key)] make [check(key)] false, and
    a [reset(key)] after that makes [check(key)] true again. *)
Theorem quota_reached_then_reset now key self :
  0 < max self ->
  today self = day now ->
  count_of key self = 0 ->
  let full := increase_times (Z.to_nat (max self)) key self in
  (check now key full).1 = false
  /\ (check now key (reset key (check now key full).2)).1 = true.
Proof.
  intros Hmax Hday Hzero full.
  destruct (increase_times_spec (Z.to_nat (max self)) key self)
    as (Ht & Hm & Hc). fold full in Ht, Hm, Hc.
  assert (Hday' : day now = today full) by congruence.
  destruct (check_same_day now key full Hday') as (Hb & Ht1 & Hm1 & _).
  split.
  - rewrite Hb, Hc, Hm, Hzero. apply bool_decide_eq_false. lia.
  - set (s1 := (check now key full).2) in *.
    destruct (reset_spec key s1) as (Ht2 & Hm2 & Hc2).
    assert (Hday2 : day now = today (reset key s1)) by congruence.
    destruct (check_same_day now key (reset key s1) Hday2) as (Hb2 & _).
    rewrite Hb2, Hc2, decide_True, Hm2, Hm1, Hm by done.
    apply bool_decide_eq_true. lia.
Qed.
End daily_facts.


(** C1 as stated fails: on the day after the count was made, [get_num]
    still reads 1 and [self.today] is still the old day. *)
Lemma get_num_serves_without_rollover :
  ~ (forall (self : DailyNumberLimiter.t string) now key,
       DailyNumberLimiter.day now ≠ DailyNumberLimiter.today self ->
       DailyNumberLimiter.serve now (DailyNumberLimiter.GetNum key) self
       = (DailyNumberLimiter.RInt 0,
          (DailyNumberLimiter.serve now (DailyNumberLimiter.GetNum key) self).2)
       /\ DailyNumberLimiter.today
            (DailyNumberLimiter.serve now (DailyNumberLimiter.GetNum key) self).2
          = DailyNumberLimiter.day now).
Proof.
  intros Hclaim.
  destruct (Hclaim (counted_once jan31) feb01 "u1") as [Hread _].
  - vm_compute. discriminate.
  - vm_compute in Hread. discriminate.
Qed.

Lemma check_applies_rollover_witness :
  DailyNumberLimiter.day feb01 ≠ DailyNumberLimiter.today (counted_once jan31)
  /\ (DailyNumberLimiter.check feb01 "u1" (counted_once jan31)).1 = true
  /\ (DailyNumberLimiter.get_num "u1"
        (DailyNumberLimiter.check feb01 "u1" (counted_once jan31)).2).1 = 0.
Proof.
  assert (Hday : DailyNumberLimiter.day feb01
                 ≠ DailyNumberLimiter.today (counted_once jan31))
    by (vm_compute; discriminate).
  split; [exact Hday|].
  destruct (check_applies_rollover feb01 "u1" (counted_once jan31) Hday)
    as (Hb & _ & _ & Hg & _).
  split; [exact Hb | apply Hg].
Defined.

Lemma quota_reached_then_reset_witness :
  let self := (DailyNumberLimiter.check jan31 "u1"
                 (DailyNumberLimiter.init 30)).2 in
  let full := DailyNumberLimiter.increase_times 30 "u1" self in
  (DailyNumberLimiter.check jan31 "u1" full).1 = false
  /\ (DailyNumberLimiter.check jan31 "u1"
        (DailyNumberLimiter.reset "u1"
           (DailyNumberLimiter.check jan31 "u1" full).2)).1 = true.
Proof.
  apply (quota_reached_then_reset jan31 "u1"
           (DailyNumberLimiter.check jan31 "u1"
              (DailyNumberLimiter.init 30)).2).
  - vm_compute. reflexivity.
  - vm_compute. reflexivity.
  - vm_compute. reflexivity.
Defined.

(** The stored day is a day of the month: a month later to the day,
    [check] sees the same number and keeps the old count. *)
Lemma same_day_next_month_keeps_count :
  DailyNumberLimiter.date_lt feb29 mar29
  /\ DailyNumberLimiter.count_of "u1"
       (DailyNumberLimiter.check mar29 "u1" (counted_once feb29)).2 = 1.
Proof. split; [right; left; vm_compute; done | vm_compute; reflexivity]. Qed.

(** ** [FreqLimiter] *)
Section freq_facts.
Import FreqLimiter.
Implicit Types (self : t) (key : string) (now : Q).
Local Open Scope Q_scope.

(** [int] truncates toward zero. *)
Lemma py_int_nonneg x : 0 <= x -> (0 <= py_int x)%Z.
Proof.
  destruct x as [a b]. unfold Qle, py_int; simpl. intros Ha.
  apply Z.quot_pos; lia.
Qed.

Lemma py_int_zero x : -1 < x -> x < 1 -> py_int x = 0%Z.
Proof.
  destruct x as [a b]. unfold Qlt, py_int; simpl. intros Hlo Hhi.
  destruct (Z_le_gt_dec 0 a) as [Hpos|Hneg].
  - apply Z.quot_small. lia.
  - replace a with (- - a)%Z by lia.
    rewrite Z.quot_opp_l by lia.
    rewrite Z.quot_small; lia.
Qed.

Lemma py_int_neg x : x <= -1 -> (py_int x <= -1)%Z.
Proof.
  destruct x as [a b]. unfold Qle, py_int; simpl. intros Ha.
  replace a with (- - a)%Z by lia.
  rewrite Z.quot_opp_l by lia.
  assert (1 <= - a ÷ Z.pos b)%Z; [|lia].
  apply Z.quot_le_lower_bound; lia.
Qed.

Lemma py_int_below_succ x : inject_Z (py_int x) < x + 1.
Proof.
  destruct x as [a b]. unfold Qlt, py_int, inject_Z; simpl.
  pose proof (Z.quot_rem' a (Z.pos b)) as Hdiv.
  destruct (Z_le_gt_dec 0 a) as [Hpos|Hneg].
  - assert (0 <= Z.rem a (Z.pos b) < Z.pos b)%Z
      by (apply Z.rem_bound_pos; lia).
    nia.
  - assert (- Z.pos b < Z.rem a (Z.pos b) <= 0)%Z
      by (apply Z.rem_bound_pos_neg; lia).
    nia.
Qed.

Lemma py_int_le x : 0 <= x -> inject_Z (py_int x) <= x.
Proof.
  destruct x as [a b]. unfold Qle, py_int, inject_Z; simpl. intros Ha.
  pose proof (Z.mul_quot_le a (Z.pos b)) as Hq. lia.
Qed.

Lemma py_int_above_pred x : x < inject_Z (py_int x) + 1.
Proof.
  destruct x as [a b]. unfold Qlt, py_int, inject_Z; simpl.
  pose proof (Z.quot_rem' a (Z.pos b)) as Hdiv.
  destruct (Z_le_gt_dec 0 a) as [Hpos|Hneg].
  - assert (0 <= Z.rem a (Z.pos b) < Z.pos b)%Z
      by (apply Z.rem_bound_pos; lia).
    nia.
  - assert (- Z.pos b < Z.rem a (Z.pos b) <= 0)%Z
      by (apply Z.rem_bound_pos_neg; lia).
    nia.
Qed.

Lemma py_int_nonneg_above x : -1 < x -> (0 <= py_int x)%Z.
Proof.
  intros Hx. destruct (Qlt_le_dec x 0) as [Hneg|Hpos].
  - rewrite py_int_zero; [done | done | lra].
  - by apply py_int_nonneg.
Qed.

Lemma py_int_ge x : x <= 0 -> x <= inject_Z (py_int x).
Proof.
  destruct x as [a b]. unfold Qle, py_int, inject_Z; simpl. intros Ha.
  pose proof (Z.mul_quot_ge a (Z.pos b)) as Hq. lia.
Qed.

Lemma check_spec now key self :
  (check now key self).1 = Qle_bool (next_allowed key self) now
  /\ forall k, next_allowed k (check now key self).2 = next_allowed k self.
Proof.
  unfold check, next_allowed.
  pose proof (dd_getitem_value 0 key (next_time self)) as Hv.
  pose proof (dd_getitem_store 0 key (next_time self)) as Hs.
  destruct (dd_getitem 0 key (next_time self)) as [v d]; simpl in *.
  by subst v.
Qed.

Lemma left_spec now key self :
  (left now key self).1 = (py_int (next_allowed key self - now) + 1)%Z
  /\ forall k, next_allowed k (left now key self).2 = next_allowed k self.
Proof.
  unfold left, next_allowed.
  pose proof (dd_getitem_value 0 key (next_time self)) as Hv.
  pose proof (dd_getitem_store 0 key (next_time self)) as Hs.
  destruct (dd_getitem 0 key (next_time self)) as [v d]; simpl in *.
  by subst v.
Qed.

Lemma start_spec now key cooldown_time self k :
  next_allowed k (start now key cooldown_time self)
  = if decide (key = k)
    then now + inject_Z (if bool_decide (cooldown_time > 0)%Z
                         then cooldown_time else 60%Z)
    else next_allowed k self.
Proof. unfold start, next_allowed; simpl. apply dd_value_insert. Qed.

(** A call that is not a [start] of [key] leaves its time as it is. *)
Lemma serve_keeps_next_allowed now c key self :
  starts key c = false ->
  next_allowed key (serve now c self) = next_allowed key self.
Proof.
  destruct c as [k|k d|k]; simpl; intros Hs.
  - apply check_spec.
  - rewrite start_spec. apply bool_decide_eq_false in Hs.
    by rewrite decide_False.
  - apply left_spec.
Qed.

Lemma never_started_default history key :
  never_started key history ->
  next_allowed key (run history init) = 0.
Proof.
  unfold never_started.
  assert (Hgen : forall self,
    forallb (fun nc => negb (starts key nc.2)) history = true ->
    next_allowed key (run history self) = next_allowed key self).
  { induction history as [|[now c] rest IH]; intros self Hall; simpl in *.
    - done.
    - apply andb_prop in Hall as [Hc Hrest].
      rewrite IH by done. apply serve_keeps_next_allowed.
      by destruct (starts key c). }
  intros Hall. rewrite Hgen by done.
  unfold next_allowed, init; simpl. apply dd_value_empty.
Qed.
(** C7: [check(key)] is true exactly when the current time has reached the
    key's next-allowed time; a key that was never started has next-allowed
    time 0 and, the clock counting seconds from the epoch, is found
    expired. *)
Theorem check_true_iff_time_reached history self now key :
  ((check now key self).1 = true <-> next_allowed key self <= now)
  /\ (never_started key history -> 0 <= now ->
      next_allowed key (run history init) = 0
      /\ (check now key (run history init)).1 = true).
Proof.
  split.
  - destruct (check_spec now key self) as [-> _]. apply Qle_bool_iff.
  - intros Hnever Hnow.
    pose proof (never_started_default history key Hnever) as Hzero.
    split; [exact Hzero|].
    destruct (check_spec now key (run history init)) as [-> _].
    rewrite Hzero. by apply Qle_bool_iff.
Qed.

(** C8: [start(key, d)] sets the key's next-allowed time to [now + d] when
    [d > 0] and to [now + 60] otherwise; after [start(key, 10)] a check
    made at once, or at any time less than 10 units later, is false, and a
    check made 10 units later or more is true. *)
Theorem start_sets_next_allowed self now key d :
  ((d > 0)%Z -> next_allowed key (start now key d self) = now + inject_Z d)
  /\ ((d <= 0)%Z -> next_allowed key (start now key d self) = now + 60)
  /\ (check now key (start now key 10 self)).1 = false
  /\ (forall now', now' < now + 10 ->
        (check now' key (start now key 10 self)).1 = false)
  /\ (forall now', now + 10 <= now' ->
        (check now' key (start now key 10 self)).1 = true).
Proof.
  assert (Hten : next_allowed key (start now key 10 self) = now + 10).
  { rewrite start_spec, decide_True by done. done. }
  assert (Hlate : forall now', now' < now + 10 ->
            (check now' key (start now key 10 self)).1 = false).
  { intros now' Hlt.
    destruct (check_spec now' key (start now key 10 self)) as [-> _].
    rewrite Hten. apply not_true_is_false. rewrite Qle_bool_iff. lra. }
  split; [|split; [|split; [|split]]].
  - intros Hd. rewrite start_spec, decide_True by done.
    by rewrite bool_decide_eq_true_2.
  - intros Hd. rewrite start_spec, decide_True by done.
    rewrite bool_decide_eq_false_2 by lia. done.
  - apply Hlate. lra.
  - exact Hlate.
  - intros now' Hge.
    destruct (check_spec now' key (start now key 10 self)) as [-> _].
    rewrite Hten. by apply Qle_bool_iff.
Qed.

(** C9: [left(key)] is [int(next_allowed - now) + 1], where [int] cuts
    the fraction off toward zero: [int(x)] is the whole number between [x]
    and 0 that is less than one away from [x].  Before the cooldown
    expires [left(key)] is at least 1, namely the whole number above the
    remaining time by more than 0 and at most 1; for a cooldown expired by
    less than one unit it is 1. *)
Theorem left_at_least_one_before_expiry self now key :
  (left now key self).1 = (py_int (next_allowed key self - now) + 1)%Z
  /\ (forall x,
        (0 <= x -> inject_Z (py_int x) <= x /\ x < inject_Z (py_int x) + 1)
        /\ (x <= 0 -> x <= inject_Z (py_int x)
                      /\ inject_Z (py_int x) - 1 < x))
  /\ (now < next_allowed key self ->
      (1 <= (left now key self).1)%Z
      /\ next_allowed key self - now < inject_Z (left now key self).1
      /\ inject_Z (left now key self).1 <= next_allowed key self - now + 1)
  /\ (next_allowed key self <= now -> now < next_allowed key self + 1 ->
      (left now key self).1 = 1%Z).
Proof.
  destruct (left_spec now key self) as [Hl _].
  split; [exact Hl|]. split; [|rewrite Hl; split].
  - intros x. split; intros Hx.
    + split; [by apply py_int_le | apply py_int_above_pred].
    + split; [by apply py_int_ge|].
      pose proof (py_int_below_succ x). lra.
  - intros Hlt.
    assert (Hpos : 0 <= next_allowed key self - now) by lra.
    pose proof (py_int_nonneg _ Hpos) as Hnn.
    pose proof (py_int_le _ Hpos) as Hle.
    pose proof (py_int_above_pred (next_allowed key self - now)) as Hup.
    split; [lia|].
    split; rewrite inject_Z_plus; change (inject_Z 1) with 1; lra.
  - intros Hexp Hrecent. rewrite py_int_zero; [done| lra | lra].
Qed.

(** C10: for a cooldown expired more than one unit ago [left(key)] is not
    positive; for a key never started it is [int(0 - now) + 1], which is
    not positive once the clock is past its first second and lies below
    [2 - now]. *)
Theorem left_nonpositive_when_inactive history self now key :
  (next_allowed key self + 1 < now -> ((left now key self).1 <= 0)%Z)
  /\ (never_started key history ->
      (left now key (run history init)).1 = (py_int (0 - now) + 1)%Z
      /\ (1 <= now -> ((left now key (run history init)).1 <= 0)%Z)
      /\ inject_Z (left now key (run history init)).1 < 2 - now).
Proof.
  split.
  - intros Hexp. destruct (left_spec now key self) as [-> _].
    assert (py_int (next_allowed key self - now) <= -1)%Z; [|lia].
    apply py_int_neg. lra.
  - intros Hnever.
    pose proof (never_started_default history key Hnever) as Hzero.
    destruct (left_spec now key (run history init)) as [-> _].
    rewrite Hzero. split; [done|]. split.
    + intros Hnow. assert (py_int (0 - now) <= -1)%Z; [|lia].
      apply py_int_neg. lra.
    + rewrite inject_Z_plus.
      pose proof (py_int_below_succ (0 - now)) as Hb.
      change (inject_Z 1) with 1. lra.
Qed.
End freq_facts.

Lemma check_true_iff_time_reached_witness :
  FreqLimiter.next_allowed "u3" freq_state = 0%Q
  /\ (FreqLimiter.check 1700000020 "u3" freq_state).1 = true.
Proof.
  apply (proj2 (check_true_iff_time_reached freq_history freq_state
                  1700000020 "u3")).
  - reflexivity.
  - unfold Qle; simpl; lia.
Defined.

Lemma start_sets_next_allowed_witness :
  FreqLimiter.next_allowed "u2"
    (FreqLimiter.start 1700000020 "u2" 10 freq_state)
  = (1700000020 + inject_Z 10)%Q
  /\ FreqLimiter.next_allowed "u2"
       (FreqLimiter.start 1700000020 "u2" (-3) freq_state)
     = (1700000020 + 60)%Q
  /\ (FreqLimiter.check (1700000025 + (1 # 2)) "u2"
        (FreqLimiter.start 1700000020 "u2" 10 freq_state)).1 = false
  /\ (FreqLimiter.check 1700000030 "u2"
        (FreqLimiter.start 1700000020 "u2" 10 freq_state)).1 = true.
Proof.
  destruct (start_sets_next_allowed freq_state 1700000020 "u2" 10)
    as (Hpos & _ & _ & Hearly & Hlate).
  destruct (start_sets_next_allowed freq_state 1700000020 "u2" (-3))
    as (_ & Hneg & _).
  split; [apply Hpos; lia|].
  split; [apply Hneg; lia|].
  split; [apply Hearly | apply Hlate]; unfold Qlt, Qle; simpl; lia.
Defined.

Lemma left_at_least_one_before_expiry_witness :
  (1 <= (FreqLimiter.left 1700000012 "u2" freq_state).1)%Z
  /\ (FreqLimiter.next_allowed "u2" freq_state - 1700000012
      < inject_Z (FreqLimiter.left 1700000012 "u2" freq_state).1)%Q
  /\ (FreqLimiter.left (1700000015 + (1 # 4)) "u2" freq_state).1 = 1%Z.
Proof.
  destruct (left_at_least_one_before_expiry freq_state 1700000012 "u2")
    as (_ & _ & Hbefore & _).
  destruct (left_at_least_one_before_expiry freq_state
              (1700000015 + (1 # 4)) "u2") as (_ & _ & _ & Hjust).
  destruct Hbefore as (Hone & Hlow & _); [by vm_compute|].
  split; [exact Hone|]. split; [exact Hlow|].
  apply Hjust; by vm_compute.
Defined.

Lemma left_nonpositive_when_inactive_witness :
  ((FreqLimiter.left 1700000020 "u2" freq_state).1 <= 0)%Z
  /\ ((FreqLimiter.left 1700000020 "u3" freq_state).1 <= 0)%Z.
Proof.
  destruct (left_nonpositive_when_inactive freq_history freq_state
              1700000020 "u2") as (Hexpired & _).
  destruct (left_nonpositive_when_inactive freq_history freq_state
              1700000020 "u3") as (_ & Hnever).
  split.
  - apply Hexpired. by vm_compute.
  - apply Hnever; [reflexivity | by vm_compute].
Defined.

(** ** [cache(ttl)]: binding *)
Section bind_more.
Import Cache.
Implicit Types (sig : list param) (args : list pyval)
  (kw : gmap string pyval) (bound : list (string * pyval)).

Lemma bind_too_many sig args kw :
  (length sig < length args)%nat -> bind sig args kw = None.
Proof.
  revert args. induction sig as [|p sig IH]; intros [|a args]; simpl;
    try lia; [done|].
  intros Hlen. destruct (kw !! pname p); [done|].
  rewrite IH by lia. done.
Qed.

Lemma bind_unknown_keyword sig args kw k :
  is_Some (kw !! k) -> k ∉ map pname sig -> bind sig args kw = None.
Proof.
  revert args kw. induction sig as [|p sig IH]; intros args kw Hk Hnot; simpl.
  - destruct args; [|done]. case_decide as Hempty; [|done].
    rewrite Hempty, lookup_empty in Hk. by destruct Hk.
  - apply not_elem_of_cons in Hnot as [Hne Hnot].
    destruct args as [|a args].
    + destruct (kw !! pname p) as [v|].
      * rewrite (IH [] (delete (pname p) kw)); [done| |done].
        by rewrite lookup_delete_ne.
      * destruct (pdefault p); [|done]. by rewrite (IH [] kw).
    + destruct (kw !! pname p); [done|]. by rewrite (IH args kw).
Qed.

Lemma bind_given_twice sig args kw i p :
  sig !! i = Some p -> (i < length args)%nat -> is_Some (kw !! pname p) ->
  bind sig args kw = None.
Proof.
  revert args i. induction sig as [|q sig IH]; intros args i; [done|].
  destruct args as [|a args]; simpl; [lia|].
  destruct i as [|i]; simpl.
  - intros [= ->] _ [v ->]. done.
  - intros Hp Hlen Hk. destruct (kw !! pname q); [done|].
    rewrite (IH args i) by (done || lia). done.
Qed.

Lemma bind_missing sig args kw i p :
  sig !! i = Some p -> (length args <= i)%nat ->
  pdefault p = None -> kw !! pname p = None ->
  bind sig args kw = None.
Proof.
  revert args kw i. induction sig as [|q sig IH]; intros args kw i; [done|].
  destruct args as [|a args]; simpl.
  - destruct i as [|i]; simpl.
    + intros [= ->] _ -> ->. done.
    + intros Hp _ Hd Hk. destruct (kw !! pname q) as [v|] eqn:E.
      * rewrite (IH [] (delete (pname q) kw) i); simpl; try done; try lia.
        destruct (decide (pname q = pname p)) as [Heq|Hne].
        -- rewrite Heq. apply lookup_delete_eq.
        -- by rewrite lookup_delete_ne.
      * destruct (pdefault q); [|done].
        rewrite (IH [] kw i); simpl; try done; lia.
  - destruct i as [|i]; simpl; [lia|].
    intros Hp Hlen Hd Hk. destruct (kw !! pname q); [done|].
    rewrite (IH args kw i); try done. lia.
Qed.

Lemma bind_keeps_keyword sig args kw bound k v :
  bind sig args kw = Some bound -> kw !! k = Some v -> (k, v) ∈ bound.
Proof.
  revert args kw bound. induction sig as [|p sig IH]; intros args kw bound;
    simpl.
  - destruct args; [|done]. case_decide as Hempty; [|done].
    intros _. by rewrite Hempty, lookup_empty.
  - destruct args as [|a args].
    + destruct (kw !! pname p) as [v0|] eqn:E.
      * destruct (bind sig [] (delete (pname p) kw)) as [r|] eqn:Hr; [|done].
        intros [= <-] Hk. destruct (decide (pname p = k)) as [<-|Hne].
        -- rewrite E in Hk. injection Hk as ->. left.
        -- right. eapply IH; [exact Hr|]. by rewrite lookup_delete_ne.
      * destruct (pdefault p) as [d|]; [|done].
        destruct (bind sig [] kw) as [r|] eqn:Hr; [|done].
        intros [= <-] Hk. right. by eapply IH.
    + destruct (kw !! pname p) eqn:E; [done|].
      destruct (bind sig args kw) as [r|] eqn:Hr; [|done].
      intros [= <-] Hk. right. by eapply IH.
Qed.

Lemma bind_positional_prefix sig args kw bound :
  bind sig args kw = Some bound ->
  take (length args) (map snd bound) = args.
Proof.
  revert args kw bound. induction sig as [|p sig IH]; intros args kw bound;
    simpl.
  - destruct args; [|done]. case_decide; [|done]. by intros [= <-].
  - destruct args as [|a args]; [done|].
    destruct (kw !! pname p); [done|].
    destruct (bind sig args kw) as [r|] eqn:Hr; [|done].
    intros [= <-]. simpl. f_equal. by eapply IH.
Qed.

Lemma bind_default sig args kw bound i p :
  bind sig args kw = Some bound ->
  sig !! i = Some p -> (length args <= i)%nat -> kw !! pname p = None ->
  exists d, pdefault p = Some d /\ bound !! i = Some (pname p, d).
Proof.
  revert args kw bound i. induction sig as [|q sig IH];
    intros args kw bound i; [done|].
  destruct args as [|a args]; simpl.
  - destruct (kw !! pname q) as [v|] eqn:E.
    + destruct (bind sig [] (delete (pname q) kw)) as [r|] eqn:Hr; [|done].
      intros [= <-]. destruct i as [|i]; simpl.
      * intros [= ->] _ Hk. congruence.
      * intros Hp _ Hk. eapply (IH [] _ r i); simpl; try done; try lia.
        destruct (decide (pname q = pname p)) as [Heq|Hne].
        -- rewrite Heq. apply lookup_delete_eq.
        -- by rewrite lookup_delete_ne.
    + destruct (pdefault q) as [d|] eqn:Hd; [|done].
      destruct (bind sig [] kw) as [r|] eqn:Hr; [|done].
      intros [= <-]. destruct i as [|i]; simpl.
      * intros [= <-] _ _. eauto.
      * intros Hp _ Hk. eapply (IH [] _ r i); simpl; try done; lia.
  - destruct (kw !! pname q); [done|].
    destruct (bind sig args kw) as [r|] eqn:Hr; [|done].
    intros [= <-]. destruct i as [|i]; simpl; [lia|].
    intros Hp Hlen Hk. eapply (IH args _ r i); try done. lia.
Qed.
End bind_more.

(** ** [cache(ttl)]: canonical keys *)
Section key_facts.
Import Cache.
Implicit Types (sig : list param) (args : list pyval)
  (kw : gmap string pyval) (bound : list (string * pyval)).

(** [bind] lists one value per declared parameter, in declaration order. *)
Lemma bind_names sig args kw bound :
  bind sig args kw = Some bound -> map fst bound = map pname sig.
Proof.
  revert args kw bound.
  induction sig as [|p sig IH]; intros args kw bound; simpl.
  - destruct args; [|done]. case_decide; [|done]. by intros [= <-].
  - destruct args as [|a args].
    + destruct (kw !! pname p) as [v|].
      * destruct (bind sig [] (delete (pname p) kw)) as [r|] eqn:E; [|done].
        intros [= <-]. simpl. f_equal. eauto.
      * destruct (pdefault p) as [d|]; [|done].
        destruct (bind sig [] kw) as [r|] eqn:E; [|done].
        intros [= <-]. simpl. f_equal. eauto.
    + destruct (kw !! pname p); [done|].
      destruct (bind sig args kw) as [r|] eqn:E; [|done].
      intros [= <-]. simpl. f_equal. eauto.
Qed.

Lemma has_bar_app s1 s2 : has_bar (s1 +:+ s2) = has_bar s1 || has_bar s2.
Proof.
  induction s1 as [|c s1 IH]; simpl; [done|].
  case_decide; [done | exact IH].
Qed.

(** Two texts that agree, each cut at its first separator. *)
Lemma cut_at_bar x x' r r' :
  has_bar x = false -> has_bar x' = false ->
  x +:+ "|" +:+ r = x' +:+ "|" +:+ r' -> x = x' /\ r = r'.
Proof.
  revert x'. induction x as [|c x IH]; intros [|c' x']; cbn.
  - intros _ _ [= Heq]. done.
  - case_decide as Hc; [done|]. intros _ _ [= Heq _]. done.
  - case_decide as Hc; [done|]. intros _ _ [= Heq _]. done.
  - case_decide; [done|]. case_decide; [done|].
    intros Hx Hx' [= -> Heq].
    destruct (IH x' Hx Hx' Heq) as [-> ->]. done.
Qed.

Lemma join_two sep x y rest :
  join sep (x :: y :: rest) = x +:+ sep +:+ join sep (y :: rest).
Proof. reflexivity. Qed.

(** ['|'.join] can be undone on parts that hold no separator. *)
Lemma join_bar_inj (l1 l2 : list string) :
  length l1 = length l2 ->
  Forall (fun s => has_bar s = false) l1 ->
  Forall (fun s => has_bar s = false) l2 ->
  join "|" l1 = join "|" l2 -> l1 = l2.
Proof.
  revert l2. induction l1 as [|x l1 IH]; intros [|x' l2]; try done.
  intros [= Hlen] H1 H2.
  apply Forall_cons in H1 as [Hx H1]. apply Forall_cons in H2 as [Hx' H2].
  destruct l1 as [|y l1], l2 as [|y' l2]; try done.
  - simpl. by intros ->.
  - rewrite !join_two. intros Heq.
    destruct (cut_at_bar _ _ _ _ Hx Hx' Heq) as [-> Hrest].
    f_equal. by apply IH.
Qed.

Lemma render_has_bar kv :
  has_bar (render kv) = has_bar kv.1 || has_bar (py_str kv.2).
Proof. unfold render. rewrite !has_bar_app. simpl. done. Qed.

(** With the same names, the rendered parts agree exactly when the
    rendered values do. *)
Lemma map_render_eq bound1 bound2 :
  map fst bound1 = map fst bound2 ->
  (map render bound1 = map render bound2
   <-> map (fun kv => py_str kv.2) bound1 = map (fun kv => py_str kv.2) bound2).
Proof.
  revert bound2.
  induction bound1 as [|[k v] b1 IH]; intros [|[k' v'] b2]; try done.
  simpl. intros [= -> Hnames]. specialize (IH b2 Hnames).
  unfold render at 1 2; simpl. split.
  - intros [= Hv Hrest]. f_equal; [|by apply IH].
    by apply (inj (String.append "_")), (inj (String.append k')).
  - intros [= -> Hrest]. f_equal. by apply IH.
Qed.
(** The rendered parts, written with the declared names in declaration
    order. *)
Lemma map_render_by_signature sig bound :
  map fst bound = map pname sig ->
  map render bound
  = zip_with (fun p v => pname p +:+ "_" +:+ py_str v) sig (map snd bound).
Proof.
  revert sig. induction bound as [|[k v] bound IH]; intros [|p sig]; try done.
  simpl. intros [= -> Hnames]. unfold render at 1; simpl. f_equal. by apply IH.
Qed.

(** C3 (as amended): binding lists one value per declared parameter in
    declaration order, the positional arguments first and as given, each
    keyword argument under its name, the declared default where the call
    gives nothing; the canonical key is the text [name_str(value)] of
    these, in that order, joined by ['|'].  For calls whose parameter
    names and rendered values hold no ['|'], two calls have the same key
    exactly when the renderings [str(v)] of their bound values agree
    parameter by parameter. *)
Theorem same_key_iff_same_rendering sig args1 kw1 args2 kw2 bound1 bound2 :
  Forall (fun p => has_bar (pname p) = false) sig ->
  bind sig args1 kw1 = Some bound1 ->
  bind sig args2 kw2 = Some bound2 ->
  Forall (fun kv => has_bar (py_str kv.2) = false) bound1 ->
  Forall (fun kv => has_bar (py_str kv.2) = false) bound2 ->
  (map fst bound1 = map pname sig
   /\ take (length args1) (map snd bound1) = args1
   /\ (forall k v, kw1 !! k = Some v -> (k, v) ∈ bound1)
   /\ (forall i p, sig !! i = Some p -> (length args1 <= i)%nat ->
         kw1 !! pname p = None ->
         exists d, pdefault p = Some d /\ bound1 !! i = Some (pname p, d)))
  /\ key_of sig args1 kw1
     = Some (join "|"
               (zip_with (fun p v => pname p +:+ "_" +:+ py_str v)
                  sig (map snd bound1)))
  /\ (key_of sig args1 kw1 = key_of sig args2 kw2
      <-> map (fun kv => py_str kv.2) bound1
          = map (fun kv => py_str kv.2) bound2).
Proof.
  intros Hsig Hb1 Hb2 Hv1 Hv2.
  pose proof (bind_names _ _ _ _ Hb1) as Hn1.
  pose proof (bind_names _ _ _ _ Hb2) as Hn2.
  split; [|split].
  { split; [done|]. split; [by eapply bind_positional_prefix|]. split.
    - intros k v. by eapply bind_keeps_keyword.
    - intros i p. by eapply bind_default. }
  { unfold key_of, ins_key. rewrite Hb1. simpl.
    by rewrite (map_render_by_signature sig bound1 Hn1). }
  unfold key_of. rewrite Hb1, Hb2. simpl.
  assert (Hnames : map fst bound1 = map fst bound2) by congruence.
  assert (Hparts : forall bound,
    map fst bound = map pname sig ->
    Forall (fun kv => has_bar (py_str kv.2) = false) bound ->
    Forall (fun s => has_bar s = false) (map render bound)).
  { intros bound Hn Hv. apply Forall_forall. intros s Hs.
    apply list_elem_of_fmap in Hs as (kv & -> & Hkv).
    rewrite render_has_bar.
    rewrite Forall_forall in Hv. rewrite (Hv kv Hkv), orb_false_r.
    rewrite Forall_forall in Hsig.
    assert (Hk : kv.1 ∈ map pname sig)
      by (rewrite <- Hn; apply list_elem_of_fmap; eauto).
    apply list_elem_of_fmap in Hk as (p & -> & Hp). by apply Hsig. }
  rewrite <- (map_render_eq bound1 bound2 Hnames). unfold ins_key. split.
  - intros [= Hkey]. apply join_bar_inj; [| by apply Hparts..| done].
    rewrite !length_map.
    rewrite <- (length_map fst bound1), <- (length_map fst bound2).
    by rewrite Hnames.
  - by intros ->.
Qed.
End key_facts.

(** C3 as stated fails both ways, equality of values being Python's
    [==].  The default ["1"] and the integer [1] are unequal values of
    [schedule_type] and give one key; [True] and [1] are equal values of
    [use_cache] and give two keys. *)
Lemma key_equality_is_not_value_equality :
  ~ (forall sig args1 kw1 args2 kw2 bound1 bound2,
       Cache.bind sig args1 kw1 = Some bound1 ->
       Cache.bind sig args2 kw2 = Some bound2 ->
       (Cache.key_of sig args1 kw1 = Cache.key_of sig args2 kw2
        <-> Cache.values_equal bound1 bound2 = true))
  /\ ~ (forall sig args1 kw1 args2 kw2 bound1 bound2,
          Cache.bind sig args1 kw1 = Some bound1 ->
          Cache.bind sig args2 kw2 = Some bound2 ->
          Cache.key_of sig args1 kw1 = Cache.key_of sig args2 kw2 ->
          Cache.values_equal bound1 bound2 = true)
  /\ ~ (forall sig args1 kw1 args2 kw2 bound1 bound2,
          Cache.bind sig args1 kw1 = Some bound1 ->
          Cache.bind sig args2 kw2 = Some bound2 ->
          Cache.values_equal bound1 bound2 = true ->
          Cache.key_of sig args1 kw1 = Cache.key_of sig args2 kw2).
Proof.
  assert (Hshare : ~ (forall sig args1 kw1 args2 kw2 bound1 bound2,
            Cache.bind sig args1 kw1 = Some bound1 ->
            Cache.bind sig args2 kw2 = Some bound2 ->
            Cache.key_of sig args1 kw1 = Cache.key_of sig args2 kw2 ->
            Cache.values_equal bound1 bound2 = true)).
  { intros Hclaim.
    specialize (Hclaim abyss_sig call_default.1 call_default.2
                  call_int_schedule.1 call_int_schedule.2 _ _
                  eq_refl eq_refl eq_refl).
    vm_compute in Hclaim. discriminate. }
  assert (Hsplit : ~ (forall sig args1 kw1 args2 kw2 bound1 bound2,
            Cache.bind sig args1 kw1 = Some bound1 ->
            Cache.bind sig args2 kw2 = Some bound2 ->
            Cache.values_equal bound1 bound2 = true ->
            Cache.key_of sig args1 kw1 = Cache.key_of sig args2 kw2)).
  { intros Hclaim.
    specialize (Hclaim abyss_sig call_cache_true.1 call_cache_true.2
                  call_cache_one.1 call_cache_one.2 _ _
                  eq_refl eq_refl eq_refl).
    vm_compute in Hclaim. discriminate. }
  split; [|by split].
  intros Hclaim. apply Hshare.
  intros sig args1 kw1 args2 kw2 bound1 bound2 Hb1 Hb2.
  by apply (Hclaim sig args1 kw1 args2 kw2 bound1 bound2).
Qed.

Lemma same_key_iff_same_rendering_witness :
  Cache.key_of abyss_sig call_positional.1 call_positional.2
  = Some "user_id_1|uid_100000001|schedule_type_2|use_cache_True"
  /\ Cache.key_of abyss_sig call_positional.1 call_positional.2
     = Cache.key_of abyss_sig call_keyword.1 call_keyword.2.
Proof.
  destruct (same_key_iff_same_rendering abyss_sig
              call_positional.1 call_positional.2
              call_keyword.1 call_keyword.2
              [("user_id", PInt 1); ("uid", PStr "100000001");
               ("schedule_type", PStr "2"); ("use_cache", PBool true)]
              [("user_id", PInt 1); ("uid", PStr "100000001");
               ("schedule_type", PStr "2"); ("use_cache", PBool true)])
    as (_ & Htext & Hsame).
  - repeat constructor.
  - vm_compute. reflexivity.
  - vm_compute. reflexivity.
  - repeat constructor.
  - repeat constructor.
  - split; [rewrite Htext; reflexivity | by apply Hsame].
Defined.

(** ** [cache(ttl)]: the wrapped function *)
Section wrapped_facts.
Import Cache.
Context {V W : Type} (py_none : V) (ttl : Z) (sig : list param)
  (func : list pyval -> gmap string pyval -> eff W V).
Implicit Types (args : list pyval) (kw : gmap string pyval)
  (st : state V W) (data : entry V) (now : Z).

Local Abbreviation wrapped := (Cache.wrapped py_none ttl sig func).
Local Abbreviation lookup_data st bound :=
  (default (default_data py_none) (cache_data st !! ins_key bound)).

Lemma fresh_iff_not_expired data now :
  fresh ttl data now <-> expired ttl data now = false.
Proof.
  unfold fresh, expired. destruct (time data) as [t|].
  - rewrite bool_decide_eq_false. split.
    + intros (t' & [= <-] & Hage). lia.
    + intros Hage. exists t. split; [done | lia].
  - split; [by intros (t & ? & _) | done].
Qed.

(** Time passing keeps an expired entry expired. *)
Lemma expired_later data now now' :
  now <= now' -> expired ttl data now = true -> expired ttl data now' = true.
Proof.
  unfold expired. destruct (time data) as [t|]; [|done].
  rewrite !bool_decide_eq_true. lia.
Qed.

Lemma wrapped_hit args kw bound st now :
  bind sig args kw = Some bound ->
  expired ttl (lookup_data st bound) now = false ->
  wrapped args kw now st = (Return (value (lookup_data st bound)), st).
Proof. intros Hb Hf. unfold Cache.wrapped. by rewrite Hb, Hf. Qed.

Lemma wrapped_miss_return args kw bound st now v w :
  bind sig args kw = Some bound ->
  expired ttl (lookup_data st bound) now = true ->
  func args kw (world st) = (Return v, w) ->
  wrapped args kw now st
  = (Return v,
     {| cache_data :=
          <[ins_key bound := {| time := Some now; value := v |}]> (cache_data st);
        world := w; calls := calls st ++ [(args, kw)] |}).
Proof. intros Hb He Hf. unfold Cache.wrapped. by rewrite Hb, He, Hf. Qed.

Lemma wrapped_miss_raise args kw bound st now e w :
  bind sig args kw = Some bound ->
  expired ttl (lookup_data st bound) now = true ->
  func args kw (world st) = (Raise e, w) ->
  wrapped args kw now st
  = (Raise e,
     {| cache_data := cache_data st; world := w;
        calls := calls st ++ [(args, kw)] |}).
Proof. intros Hb He Hf. unfold Cache.wrapped. by rewrite Hb, He, Hf. Qed.

(** A call on an expired or absent entry calls [func] once, whatever
    comes of it. *)
Lemma wrapped_miss_calls args kw bound st now :
  bind sig args kw = Some bound ->
  expired ttl (lookup_data st bound) now = true ->
  (wrapped args kw now st).1 = (func args kw (world st)).1
  /\ calls (wrapped args kw now st).2 = calls st ++ [(args, kw)].
Proof.
  intros Hb He. destruct (func args kw (world st)) as [[v|e] w] eqn:Hf.
  - by rewrite (wrapped_miss_return _ _ _ _ _ _ _ Hb He Hf).
  - by rewrite (wrapped_miss_raise _ _ _ _ _ _ _ Hb He Hf).
Qed.
(** C2: when [func] raises on a call whose entry is absent or expired,
    the wrapped call raises the same exception and [cache_data] is what it
    was before the call; a later call with the same arguments calls [func]
    again. *)
Theorem failure_leaves_cache_unchanged args kw bound st now now' e w :
  bind sig args kw = Some bound ->
  expired ttl (lookup_data st bound) now = true ->
  func args kw (world st) = (Raise e, w) ->
  now <= now' ->
  let failed := wrapped args kw now st in
  failed.1 = Raise e
  /\ cache_data failed.2 = cache_data st
  /\ cache_data failed.2 !! ins_key bound = cache_data st !! ins_key bound
  /\ calls failed.2 = calls st ++ [(args, kw)]
  /\ (wrapped args kw now' failed.2).1 = (func args kw w).1
  /\ calls (wrapped args kw now' failed.2).2
     = calls st ++ [(args, kw); (args, kw)].
Proof.
  intros Hb He Hf Hlater failed.
  pose proof (wrapped_miss_raise _ _ _ _ _ _ _ Hb He Hf) as Hfail.
  fold failed in Hfail. rewrite Hfail; simpl.
  repeat (split; [done|]).
  set (st' := {| cache_data := cache_data st; world := w;
                 calls := calls st ++ [(args, kw)] |}).
  assert (He' : expired ttl (lookup_data st' bound) now' = true)
    by (by apply (expired_later _ now)).
  destruct (wrapped_miss_calls args kw bound st' now' Hb He') as [-> ->].
  simpl. split; [done|]. by rewrite <- app_assoc.
Qed.

(** C5: a first call on an absent or expired entry calls [func] and stores
    its result with the current time; a second call with the same
    arguments at an age of at most [ttl] returns the stored value and
    leaves the state, the log of calls included, as it is; a third call at
    an age above [ttl] calls [func] again.  An entry is fresh exactly when
    it is not expired, that is when [now - time <= ttl]. *)
Theorem memoised_within_ttl args kw bound st now1 now2 now3 v w :
  bind sig args kw = Some bound ->
  expired ttl (lookup_data st bound) now1 = true ->
  func args kw (world st) = (Return v, w) ->
  now2 - now1 <= ttl ->
  now3 - now1 > ttl ->
  let first := wrapped args kw now1 st in
  let second := wrapped args kw now2 first.2 in
  let third := wrapped args kw now3 second.2 in
  first.1 = Return v
  /\ cache_data first.2 !! ins_key bound
     = Some {| time := Some now1; value := v |}
  /\ calls first.2 = calls st ++ [(args, kw)]
  /\ second = (Return v, first.2)
  /\ third.1 = (func args kw w).1
  /\ calls third.2 = calls st ++ [(args, kw); (args, kw)]
  /\ (forall data now, expired ttl data now = false <-> fresh ttl data now).
Proof.
  intros Hb He Hf Hage2 Hage3 first second third.
  pose proof (wrapped_miss_return _ _ _ _ _ _ _ Hb He Hf) as Hfirst.
  fold first in Hfirst.
  set (st1 := first.2) in *.
  assert (Hentry : cache_data st1 !! ins_key bound
                   = Some {| time := Some now1; value := v |}).
  { unfold st1. rewrite Hfirst. simpl. apply lookup_insert_eq. }
  assert (Hfresh : expired ttl (lookup_data st1 bound) now2 = false).
  { rewrite Hentry. simpl. unfold expired; simpl.
    apply bool_decide_eq_false. lia. }
  assert (Hsecond : second = (Return v, st1)).
  { unfold second. rewrite (wrapped_hit _ _ _ _ _ Hb Hfresh).
    by rewrite Hentry. }
  assert (Hstale : expired ttl (lookup_data st1 bound) now3 = true).
  { rewrite Hentry. simpl. unfold expired; simpl.
    apply bool_decide_eq_true. lia. }
  split; [by rewrite Hfirst|]. split; [exact Hentry|].
  split; [unfold st1; by rewrite Hfirst|]. split; [exact Hsecond|].
  unfold third. rewrite Hsecond. simpl.
  destruct (wrapped_miss_calls args kw bound st1 now3 Hb Hstale) as [-> ->].
  unfold st1. rewrite Hfirst. simpl.
  split; [done|]. split; [by rewrite <- app_assoc|].
  intros data now. symmetry. apply fresh_iff_not_expired.
Qed.
End wrapped_facts.

Lemma failure_leaves_cache_unchanged_witness :
  let failed :=
    Cache.wrapped PNone one_hour abyss_sig flaky
      call_default.1 call_default.2 0 (cold 0) in
  failed.1 = Raise (Failure "timed out")
  /\ Cache.cache_data failed.2 = ∅
  /\ (Cache.wrapped PNone one_hour abyss_sig flaky
        call_default.1 call_default.2 5 failed.2).1 = Return (PInt 1).
Proof.
  destruct (failure_leaves_cache_unchanged PNone one_hour abyss_sig flaky
              call_default.1 call_default.2 _ (cold 0) 0 5
              (Failure "timed out") 1%nat eq_refl eq_refl eq_refl)
    as (Hraise & Hcache & _ & _ & Hagain & _); [lia|].
  split; [exact Hraise|]. split; [exact Hcache | exact Hagain].
Defined.

Lemma memoised_within_ttl_witness :
  let first :=
    Cache.wrapped PNone one_hour abyss_sig flaky
      call_default.1 call_default.2 0 (cold 1) in
  let second :=
    Cache.wrapped PNone one_hour abyss_sig flaky
      call_default.1 call_default.2 one_hour first.2 in
  let third :=
    Cache.wrapped PNone one_hour abyss_sig flaky
      call_default.1 call_default.2 (one_hour + 1) second.2 in
  first.1 = Return (PInt 1)
  /\ second = (Return (PInt 1), first.2)
  /\ third.1 = Return (PInt 2)
  /\ length (Cache.calls third.2) = 2%nat.
Proof.
  destruct (memoised_within_ttl PNone one_hour abyss_sig flaky
              call_default.1 call_default.2 _ (cold 1) 0 one_hour
              (one_hour + 1) (PInt 1) 2%nat eq_refl eq_refl eq_refl)
    as (Hfirst & _ & _ & Hsecond & Hthird & Hcalls & _);
    [unfold one_hour; lia | unfold one_hour; lia |].
  split; [exact Hfirst|]. split; [exact Hsecond|].
  split; [exact Hthird|]. cbv zeta. rewrite Hcalls. reflexivity.
Defined.

(** ** [get_data.py] *)
Section wrapper_facts.
Import GetData.
Context {W Hd Rs J : Type} `{!Collaborators W Hd Rs J}.
Implicit Types (w : W) (uid : string) (c : cookie_reply).

Lemma retry_falls_through n fuel (body : eff W (option (result J))) w w' :
  falls_through n body w w' ->
  retry (n + fuel) body w = retry fuel body w'.
Proof.
  revert w. induction n as [|n IH]; intros w; simpl.
  - by intros ->.
  - intros (w1 & Hbody & Hrest). rewrite Hbody. by apply IH.
Qed.

(** A loop that reaches, after [n] rejected cookies, an iteration that
    returns [r]. *)
Lemma retry_returns n fuel (body : eff W (option (result J))) w w1 w2 r :
  falls_through n body w w1 ->
  body w1 = (Return (Some r), w2) ->
  retry (n + S fuel) body w = Some (Return r, w2).
Proof.
  intros Hn Hbody. rewrite (retry_falls_through _ _ _ _ _ Hn).
  simpl. by rewrite Hbody.
Qed.

Lemma abyss_attempt_no_cookie user_id uid schedule_type server_id w c w' :
  get_use_cookie user_id uid "查询深渊" w = (Return c, w') ->
  truthy c = false ->
  abyss_attempt user_id uid schedule_type server_id w
  = (Return (Some (Message no_public_cookie_msg)), w').
Proof.
  intros Hc Hfalsy. unfold abyss_attempt, eff_bind.
  by rewrite Hc, Hfalsy.
Qed.

Lemma player_card_attempt_no_cookie user_id uid server_id w c w' :
  get_use_cookie user_id uid "查询原神卡片" w = (Return c, w') ->
  truthy c = false ->
  player_card_attempt user_id uid server_id w
  = (Return (Some (Message no_public_cookie_msg)), w').
Proof.
  intros Hc Hfalsy. unfold player_card_attempt, eff_bind.
  by rewrite Hc, Hfalsy.
Qed.

Lemma chara_detail_attempt_no_cookie user_id uid server_id w c w' :
  get_use_cookie user_id uid "查询角色详情" w = (Return c, w') ->
  truthy c = false ->
  chara_detail_attempt user_id uid server_id w
  = (Return (Some (Message no_public_cookie_msg)), w').
Proof.
  intros Hc Hfalsy. unfold chara_detail_attempt, eff_bind.
  by rewrite Hc, Hfalsy.
Qed.

Lemma daily_note_no_cookie uid server_id w c w' :
  server_of uid = Return server_id ->
  get_own_cookie uid "查询实时便签" w = (Return c, w') ->
  truthy c = false ->
  get_daily_note_data uid w
  = (Return (Message ("你的uid" +:+ uid
       +:+ "没有绑定对应的cookie,使用ysb绑定才能用实时便签哦!")), w').
Proof.
  intros Hs Hc Hfalsy. unfold get_daily_note_data, eff_bind, lift.
  by rewrite Hs, Hc, Hfalsy.
Qed.

Lemma chara_skill_no_cookie uid chara_id use_cache server_id w c w' :
  server_of uid = Return server_id ->
  get_own_cookie uid "查询角色天赋" w = (Return c, w') ->
  truthy c = false ->
  get_chara_skill_data uid chara_id use_cache w = (Return NoneResult, w').
Proof.
  intros Hs Hc Hfalsy. unfold get_chara_skill_data, eff_bind, lift.
  by rewrite Hs, Hc, Hfalsy.
Qed.

Lemma monthinfo_no_cookie uid month use_cache server_id w c w' :
  server_of uid = Return server_id ->
  get_own_cookie uid "查询每月札记" w = (Return c, w') ->
  truthy c = false ->
  get_monthinfo_data uid month use_cache w
  = (Return (Message ("你的uid" +:+ uid
       +:+ "没有绑定对应的cookie,使用ysb绑定才能用每月札记哦!")), w').
Proof.
  intros Hs Hc Hfalsy. unfold get_monthinfo_data, eff_bind, lift.
  by rewrite Hs, Hc, Hfalsy.
Qed.
(** C4 (as amended): when the cookie collaborator hands back a falsy
    value, no wrapper raises.  [get_abyss_data], [get_player_card_data]
    and [get_chara_detail_data] (after any number of rejected cookies),
    [get_daily_note_data] and [get_monthinfo_data] return a message for
    the user; [get_chara_skill_data] returns [None]. *)
Theorem no_cookie_is_answered_without_raising
    user_id uid server_id schedule_type chara_id month use_cache
    n fuel w w1 w2 c :
  server_of uid = Return server_id ->
  truthy c = false ->
  (falls_through n (abyss_attempt user_id uid schedule_type server_id) w w1 ->
   get_use_cookie user_id uid "查询深渊" w1 = (Return c, w2) ->
   get_abyss_data (n + S fuel) user_id uid schedule_type use_cache w
   = Some (Return (Message no_public_cookie_msg), w2))
  /\ (falls_through n (player_card_attempt user_id uid server_id) w w1 ->
      get_use_cookie user_id uid "查询原神卡片" w1 = (Return c, w2) ->
      get_player_card_data (n + S fuel) user_id uid use_cache w
      = Some (Return (Message no_public_cookie_msg), w2))
  /\ (falls_through n (chara_detail_attempt user_id uid server_id) w w1 ->
      get_use_cookie user_id uid "查询角色详情" w1 = (Return c, w2) ->
      get_chara_detail_data (n + S fuel) user_id uid use_cache w
      = Some (Return (Message no_public_cookie_msg), w2))
  /\ (get_own_cookie uid "查询实时便签" w = (Return c, w2) ->
      get_daily_note_data uid w
      = (Return (Message ("你的uid" +:+ uid
           +:+ "没有绑定对应的cookie,使用ysb绑定才能用实时便签哦!")), w2))
  /\ (get_own_cookie uid "查询每月札记" w = (Return c, w2) ->
      get_monthinfo_data uid month use_cache w
      = (Return (Message ("你的uid" +:+ uid
           +:+ "没有绑定对应的cookie,使用ysb绑定才能用每月札记哦!")), w2))
  /\ (get_own_cookie uid "查询角色天赋" w = (Return c, w2) ->
      get_chara_skill_data uid chara_id use_cache w
      = (Return NoneResult, w2)).
Proof.
  intros Hs Hfalsy.
  split; [|split; [|split; [|split; [|split]]]].
  - intros Hn Hc. unfold get_abyss_data, with_server. rewrite Hs.
    eapply retry_returns; [exact Hn|].
    by eapply abyss_attempt_no_cookie.
  - intros Hn Hc. unfold get_player_card_data, with_server. rewrite Hs.
    eapply retry_returns; [exact Hn|].
    by eapply player_card_attempt_no_cookie.
  - intros Hn Hc. unfold get_chara_detail_data, with_server. rewrite Hs.
    eapply retry_returns; [exact Hn|].
    by eapply chara_detail_attempt_no_cookie.
  - intros Hc. by eapply daily_note_no_cookie.
  - intros Hc. by eapply monthinfo_no_cookie.
  - intros Hc. by eapply chara_skill_no_cookie.
Qed.
End wrapper_facts.

(** C4 as stated fails: with no cookie bound to the uid,
    [get_chara_skill_data] returns [None], which is no message. *)
Lemma chara_skill_returns_none_not_message :
  ~ (forall (W Hd Rs J : Type) (C : GetData.Collaborators W Hd Rs J)
            uid chara_id use_cache (w w' : W) c,
       GetData.get_own_cookie uid "查询角色天赋" w = (Return c, w') ->
       GetData.truthy c = false ->
       exists msg,
         GetData.get_chara_skill_data uid chara_id use_cache w
         = (Return (GetData.Message msg), w')).
Proof.
  intros Hclaim.
  destruct (Hclaim nat unit unit unit (rejected_pool 0)
              "100000001" (PInt 10000002) (PBool true) 0%nat 0%nat None
              eq_refl eq_refl) as [msg Hmsg].
  vm_compute in Hmsg. discriminate.
Qed.

Lemma no_cookie_is_answered_without_raising_witness :
  @GetData.get_abyss_data nat unit unit unit (rejected_pool 2) 3
    (PInt 1) "100000001" (PStr "1") (PBool true) 0%nat
  = Some (Return (GetData.Message GetData.no_public_cookie_msg), 2%nat)
  /\ @GetData.get_chara_skill_data nat unit unit unit (rejected_pool 2)
       "100000001" (PInt 10000002) (PBool true) 0%nat
     = (Return GetData.NoneResult, 0%nat).
Proof.
  destruct (@no_cookie_is_answered_without_raising nat unit unit unit
              (rejected_pool 2) (PInt 1) "100000001" "cn_gf01" (PStr "1")
              (PInt 10000002) (PInt 7) (PBool true) 2 0 0%nat 2%nat 2%nat
              None eq_refl eq_refl)
    as (Habyss & _ & _ & _ & _ & _).
  destruct (@no_cookie_is_answered_without_raising nat unit unit unit
              (rejected_pool 2) (PInt 1) "100000001" "cn_gf01" (PStr "1")
              (PInt 10000002) (PInt 7) (PBool true) 2 0 0%nat 0%nat 0%nat
              None eq_refl eq_refl)
    as (_ & _ & _ & _ & _ & Hskill).
  split.
  - apply Habyss; [|reflexivity].
    exists 1%nat. split; [reflexivity|].
    exists 2%nat. split; reflexivity.
  - apply Hskill. reflexivity.
Defined.

(** * Further properties *)

(** ** [DailyNumberLimiter]: keys, days and sums *)
Section daily_more.
Import DailyNumberLimiter.
Context {K : Type} `{Countable K}.
Implicit Types (self : t K) (key k : K) (now : datetime).

Lemma limiter_eq self1 self2 :
  today self1 = today self2 -> count self1 = count self2 ->
  max self1 = max self2 -> self1 = self2.
Proof. destruct self1, self2; simpl. by intros -> -> ->. Qed.

(** X1: a call for one key leaves the count of every other key as it is:
    [increase], [reset] and [get_num] always, [check] on the stored day. *)
Theorem other_key_keeps_count now key k num self :
  key ≠ k ->
  count_of k (increase key num self) = count_of k self
  /\ count_of k (reset key self) = count_of k self
  /\ count_of k (get_num key self).2 = count_of k self
  /\ (day now = today self ->
      count_of k (check now key self).2 = count_of k self).
Proof.
  intros Hne.
  destruct (increase_spec key num self) as (_ & _ & Hi).
  destruct (reset_spec key self) as (_ & _ & Hr).
  destruct (get_num_spec key self) as (_ & _ & _ & Hg).
  rewrite Hi, Hr, Hg, !decide_False by done.
  repeat split. intros Hday.
  by destruct (check_same_day now key self Hday) as (_ & _ & _ & ->).
Qed.

(** X2: a new limiter stores the day [-1], which no clock shows, so its
    first [check] stores the day of the clock and answers whether the
    quota is positive: a limiter made with [max_num <= 0] refuses. *)
Theorem first_check_of_new_limiter now key max_num :
  1 <= day now ->
  let first := check now key (init max_num : t K) in
  first.1 = bool_decide (0 < max_num)
  /\ today first.2 = day now
  /\ (max_num <= 0 -> first.1 = false)
  /\ (check now key first.2).1 = bool_decide (0 < max_num).
Proof.
  intros Hday first.
  assert (Hne : day now ≠ today (init max_num : t K)) by (simpl; lia).
  destruct (check_new_day now key _ Hne) as (Hb & Ht & Hm & Hc).
  fold first in Hb, Ht, Hm, Hc. simpl in Hb, Hm.
  split; [done|]. split; [done|]. split.
  - intros Hmax. rewrite Hb. apply bool_decide_eq_false. lia.
  - destruct (check_same_day now key first.2 (eq_sym Ht)) as (-> & _).
    by rewrite Hc, Hm.
Qed.

(** X3: [check] looks at the day of the month only.  Two clock readings
    with the same day number, in whatever month or year, are served alike;
    on the stored day number [check] clears nothing and answers
    [count < max]. *)
Theorem check_reads_day_number_only now now' key self :
  day now = day now' ->
  check now key self = check now' key self
  /\ (day now = today self ->
      (check now' key self).1 = bool_decide (count_of key self < max self)
      /\ today (check now' key self).2 = today self
      /\ forall k, count_of k (check now' key self).2 = count_of k self).
Proof.
  intros Hday. split.
  - unfold check. by rewrite Hday.
  - intros Hstored. rewrite Hday in Hstored.
    destruct (check_same_day now' key self Hstored) as (? & ? & _ & ?).
    done.
Qed.

(** X4: increases add up, and [reset] forgets them: two increases of a key
    leave the state one increase by the sum leaves, and a [reset] after an
    increase leaves the state [reset] alone leaves. *)
Theorem increases_add_up key a b self :
  increase key b (increase key a self) = increase key (a + b) self
  /\ reset key (increase key a self) = reset key self.
Proof.
  split.
  - unfold increase, dd_getitem.
    destruct (count self !! key) as [v|] eqn:E; simpl.
    + rewrite lookup_insert_eq. simpl.
      apply limiter_eq; simpl; try done.
      rewrite insert_insert_eq. f_equal. lia.
    + rewrite lookup_insert_eq. simpl.
      apply limiter_eq; simpl; try done.
      rewrite !insert_insert_eq. f_equal.
  - unfold reset, increase, dd_getitem.
    destruct (count self !! key) as [v|] eqn:E; simpl;
      apply limiter_eq; simpl; try done; by rewrite !insert_insert_eq.
Qed.

(** X5: [get_num] of a key the dictionary does not hold answers 0 and
    stores the key with 0; of a key it holds, [get_num] answers the stored
    count and changes nothing. *)
Theorem get_num_stores_unseen_key key self :
  (count self !! key = None ->
   (get_num key self).1 = 0
   /\ count (get_num key self).2 = <[key := 0]> (count self))
  /\ (forall v, count self !! key = Some v -> get_num key self = (v, self)).
Proof.
  unfold get_num, dd_getitem. split.
  - intros ->. done.
  - intros v ->. f_equal. by apply limiter_eq.
Qed.
End daily_more.

Lemma other_key_keeps_count_witness :
  DailyNumberLimiter.count_of "u1"
    (DailyNumberLimiter.increase "u2" 5 (counted_once jan31)) = 1
  /\ DailyNumberLimiter.count_of "u1"
       (DailyNumberLimiter.check jan31 "u2" (counted_once jan31)).2 = 1.
Proof.
  destruct (other_key_keeps_count jan31 "u2" "u1" 5 (counted_once jan31))
    as (Hi & _ & _ & Hc); [done|].
  split; [exact Hi | apply Hc; reflexivity].
Defined.

Lemma first_check_of_new_limiter_witness :
  (DailyNumberLimiter.check jan31 "u1"
     (DailyNumberLimiter.init 0 : DailyNumberLimiter.t string)).1 = false.
Proof.
  destruct (first_check_of_new_limiter (K := string) jan31 "u1" 0)
    as (_ & _ & Hrefuse & _); [by vm_compute|].
  apply Hrefuse. lia.
Defined.

Lemma check_reads_day_number_only_witness :
  DailyNumberLimiter.check feb29 "u1" (counted_once feb29)
  = DailyNumberLimiter.check mar29 "u1" (counted_once feb29)
  /\ DailyNumberLimiter.count_of "u1"
       (DailyNumberLimiter.check mar29 "u1" (counted_once feb29)).2 = 1.
Proof.
  destruct (check_reads_day_number_only feb29 mar29 "u1"
              (counted_once feb29) eq_refl) as (Hsame & Hkeep).
  split; [exact Hsame|].
  destruct (Hkeep eq_refl) as (_ & _ & Hcount). apply Hcount.
Defined.

Lemma get_num_stores_unseen_key_witness :
  (DailyNumberLimiter.get_num "u2" (counted_once jan31)).1 = 0
  /\ DailyNumberLimiter.get_num "u1" (counted_once jan31)
     = (1, counted_once jan31).
Proof.
  destruct (get_num_stores_unseen_key "u2" (counted_once jan31))
    as (Hunseen & _).
  destruct (get_num_stores_unseen_key "u1" (counted_once jan31))
    as (_ & Hseen).
  split; [apply Hunseen | apply Hseen]; reflexivity.
Defined.

(** ** [FreqLimiter]: what [left] reports, and restarts *)
Section freq_more.
Import FreqLimiter.
Implicit Types (self : t) (key k : string) (now : Q).
Local Open Scope Q_scope.

(** X6: [left(key)] is positive exactly until one unit after the
    next-allowed time; so a [left] that is not positive means the key is
    ready, while within the unit after expiry [check] is true and [left]
    is still 1. *)
Theorem left_positive_iff now key self :
  ((0 < (left now key self).1)%Z <-> now < next_allowed key self + 1)
  /\ (((left now key self).1 <= 0)%Z -> (check now key self).1 = true).
Proof.
  destruct (left_spec now key self) as [-> _].
  destruct (check_spec now key self) as [-> _].
  assert (Hiff : (0 < py_int (next_allowed key self - now) + 1)%Z
                 <-> now < next_allowed key self + 1).
  { split.
    - intros Hpos.
      destruct (Qlt_le_dec now (next_allowed key self + 1)) as [|Hge];
        [done|].
      assert (py_int (next_allowed key self - now) <= -1)%Z; [|lia].
      apply py_int_neg. lra.
    - intros Hlt.
      assert (0 <= py_int (next_allowed key self - now))%Z; [|lia].
      apply py_int_nonneg_above. lra. }
  split; [exact Hiff|].
  intros Hle. apply Qle_bool_iff.
  destruct (Qlt_le_dec now (next_allowed key self)) as [Hlt|]; [|done].
  assert (0 < py_int (next_allowed key self - now) + 1)%Z; [|lia].
  apply Hiff. lra.
Qed.

(** X7: before the cooldown expires, [left(key)] is the remaining time
    rounded up to the next whole number above it: it lies above the
    remaining time by more than 0 and by at most 1. *)
Theorem left_brackets_remaining_time now key self :
  now < next_allowed key self ->
  next_allowed key self - now < inject_Z (left now key self).1
  /\ inject_Z (left now key self).1 <= next_allowed key self - now + 1.
Proof.
  intros Hlt. destruct (left_spec now key self) as [-> _].
  pose proof (py_int_above_pred (next_allowed key self - now)) as Hup.
  assert (Hlow : inject_Z (py_int (next_allowed key self - now))
                 <= next_allowed key self - now)
    by (apply py_int_le; lra).
  split; rewrite inject_Z_plus; change (inject_Z 1) with 1; lra.
Qed.

Lemma freq_eq self1 self2 : next_time self1 = next_time self2 -> self1 = self2.
Proof. destruct self1, self2; simpl. by intros ->. Qed.

(** X8: the last [start] of a key decides: a second [start] leaves the
    state it would leave without the first, also when it is shorter; the
    times of the other keys stay as they are. *)
Theorem last_start_decides now now' key d d' self :
  start now' key d' (start now key d self) = start now' key d' self
  /\ forall k, key ≠ k ->
       next_allowed k (start now key d self) = next_allowed k self.
Proof.
  split.
  - apply freq_eq. unfold start; simpl. by rewrite insert_insert_eq.
  - intros k Hne. rewrite start_spec. by rewrite decide_False.
Qed.

(** X9: [check] and [left] change no key's next-allowed time, so a read
    never alters what a later read answers. *)
Theorem reads_keep_times now now' key k self :
  next_allowed k (check now key self).2 = next_allowed k self
  /\ next_allowed k (left now key self).2 = next_allowed k self
  /\ (check now' k (check now key self).2).1 = (check now' k self).1
  /\ (left now' k (left now key self).2).1 = (left now' k self).1
  /\ (check now' k (left now key self).2).1 = (check now' k self).1.
Proof.
  destruct (check_spec now key self) as [_ Hc].
  destruct (left_spec now key self) as [_ Hl].
  split; [apply Hc|]. split; [apply Hl|].
  destruct (check_spec now' k (check now key self).2) as [-> _].
  destruct (left_spec now' k (left now key self).2) as [-> _].
  destruct (check_spec now' k (left now key self).2) as [-> _].
  destruct (check_spec now' k self) as [-> _].
  destruct (left_spec now' k self) as [-> _].
  by rewrite Hc, Hl.
Qed.
End freq_more.

Lemma left_positive_iff_witness :
  (FreqLimiter.check 1700000020 "u2" freq_state).1 = true.
Proof.
  apply (proj2 (left_positive_iff 1700000020 "u2" freq_state)).
  by vm_compute.
Defined.

Lemma left_brackets_remaining_time_witness :
  ((1700000015 - (1700000012 + (1 # 2)))%Q
   < inject_Z (FreqLimiter.left (1700000012 + (1 # 2)) "u2" freq_state).1)%Q
  /\ (FreqLimiter.left (1700000012 + (1 # 2)) "u2" freq_state).1 = 3.
Proof.
  destruct (left_brackets_remaining_time (1700000012 + (1 # 2)) "u2"
              freq_state) as (Hlow & _); [by vm_compute|].
  split; [exact Hlow | reflexivity].
Defined.

Lemma last_start_decides_witness :
  FreqLimiter.next_allowed "u1"
    (FreqLimiter.start 1700000020 "u2" 10 freq_state) = 0%Q.
Proof.
  destruct (last_start_decides 1700000020 1700000021 "u2" 10 3 freq_state)
    as (_ & Hother).
  rewrite Hother; [reflexivity | done].
Defined.


(** X10: what [bind] delivers, when it delivers: one value per declared
    parameter in declaration order, the positional arguments first and as
    given, every keyword argument under its name, and the declared default
    for a parameter the call leaves out. *)
Theorem bind_orders_arguments (sig : list Cache.param) (args : list pyval)
    (kw : gmap string pyval) (bound : list (string * pyval)) :
  Cache.bind sig args kw = Some bound ->
  map fst bound = map Cache.pname sig
  /\ take (length args) (map snd bound) = args
  /\ (forall k v, kw !! k = Some v -> (k, v) ∈ bound)
  /\ (forall i p, sig !! i = Some p -> (length args <= i)%nat ->
        kw !! Cache.pname p = None ->
        exists d, Cache.pdefault p = Some d
                  /\ bound !! i = Some (Cache.pname p, d)).
Proof.
  intros Hb. split; [by eapply bind_names|].
  split; [by eapply bind_positional_prefix|].
  split.
  - intros k v. by eapply bind_keeps_keyword.
  - intros i p. by eapply bind_default.
Qed.

(** ** [cache(ttl)]: what a call does to the cache *)
Section wrapped_more.
Import Cache.
Context {V W : Type} (py_none : V) (ttl : Z) (sig : list param)
  (func : list pyval -> gmap string pyval -> eff W V).
Implicit Types (args : list pyval) (kw : gmap string pyval)
  (st : state V W) (data : entry V) (now : Z).

Local Abbreviation wrapped := (Cache.wrapped py_none ttl sig func).

(** X11: a call that does not fit the signature (too many positional
    arguments, an unknown keyword, a parameter given both ways, a
    parameter without default left out) raises [TypeError]; [func] is not
    called and the cache is not touched. *)
Theorem ill_fitting_call_raises_type_error args kw now st :
  (length sig < length args)%nat
  \/ (exists k, is_Some (kw !! k) /\ k ∉ map pname sig)
  \/ (exists i p, sig !! i = Some p /\ (i < length args)%nat
                  /\ is_Some (kw !! pname p))
  \/ (exists i p, sig !! i = Some p /\ (length args <= i)%nat
                  /\ pdefault p = None /\ kw !! pname p = None) ->
  wrapped args kw now st = (Raise TypeError, st).
Proof.
  intros Hbad.
  assert (Hnone : bind sig args kw = None).
  { destruct Hbad as [Hlen|[(k & Hk & Hnot)|[(i & p & Hp & Hlen & Hk)
                     |(i & p & Hp & Hlen & Hd & Hk)]]].
    - by apply bind_too_many.
    - by eapply bind_unknown_keyword.
    - by eapply bind_given_twice.
    - by eapply bind_missing. }
  unfold Cache.wrapped. by rewrite Hnone.
Qed.

(** X12: every stored entry has a time.  A cache in which this holds, the
    empty one for instance, keeps it through every call, so an entry that
    is present is stale by its age alone. *)
Theorem stored_entries_have_time args kw now st :
  map_Forall (fun _ data => is_Some (time data)) (cache_data st) ->
  map_Forall (fun _ data => is_Some (time data))
    (cache_data (wrapped args kw now st).2).
Proof.
  intros Hall. unfold Cache.wrapped.
  destruct (bind sig args kw) as [bound|]; [|done].
  destruct (expired ttl _ now); [|done].
  destruct (func args kw (world st)) as [[v|e] w]; simpl; [|done].
  apply map_Forall_insert_2; [by eexists | done].
Qed.

(** X13: a call reads and writes the entry of its own key only: every
    other entry is after the call what it was before. *)
Theorem other_entries_untouched args kw now st k :
  key_of sig args kw ≠ Some k ->
  cache_data (wrapped args kw now st).2 !! k = cache_data st !! k.
Proof.
  unfold key_of, Cache.wrapped.
  destruct (bind sig args kw) as [bound|]; simpl; [|done].
  intros Hne. destruct (expired ttl _ now); [|done].
  destruct (func args kw (world st)) as [[v|e] w]; simpl; [|done].
  apply lookup_insert_ne. congruence.
Qed.

(** X14: the entry belongs to the key, not to the arguments.  After a call
    that stored a result, a call whose arguments give the same key, made
    at an age of at most [ttl], returns that result without calling
    [func], whether or not its arguments are those of the first call. *)
Theorem same_key_shares_entry args1 kw1 args2 kw2 key now1 now2 st v w :
  key_of sig args1 kw1 = Some key ->
  key_of sig args2 kw2 = Some key ->
  expired ttl (default (default_data py_none) (cache_data st !! key)) now1
  = true ->
  func args1 kw1 (world st) = (Return v, w) ->
  now2 - now1 <= ttl ->
  let first := wrapped args1 kw1 now1 st in
  first.1 = Return v
  /\ wrapped args2 kw2 now2 first.2 = (Return v, first.2).
Proof.
  intros Hk1 Hk2 He Hf Hage first. unfold key_of in Hk1, Hk2.
  destruct (bind sig args1 kw1) as [b1|] eqn:Hb1; [|done].
  destruct (bind sig args2 kw2) as [b2|] eqn:Hb2; [|done].
  simpl in Hk1, Hk2. injection Hk1 as Hk1. injection Hk2 as Hk2.
  rewrite <- Hk1 in He.
  pose proof (wrapped_miss_return py_none ttl sig func _ _ _ _ _ _ _
                Hb1 He Hf) as Hfirst.
  fold first in Hfirst. split; [by rewrite Hfirst|].
  assert (Hentry : cache_data first.2 !! ins_key b2
                   = Some {| time := Some now1; value := v |}).
  { rewrite Hfirst, Hk2, <- Hk1. simpl. apply lookup_insert_eq. }
  assert (Hfresh : expired ttl (default (default_data py_none)
                      (cache_data first.2 !! ins_key b2)) now2 = false).
  { rewrite Hentry. unfold expired; simpl. apply bool_decide_eq_false. lia. }
  rewrite (wrapped_hit py_none ttl sig func _ _ _ _ _ Hb2 Hfresh).
  by rewrite Hentry.
Qed.
End wrapped_more.

Lemma bind_orders_arguments_witness :
  take 1 (map snd
    [("user_id", PInt 1); ("uid", PStr "100000001");
     ("schedule_type", PStr "2"); ("use_cache", PBool true)]) = [PInt 1]
  /\ Cache.bind abyss_sig call_keyword.1 call_keyword.2
     = Some [("user_id", PInt 1); ("uid", PStr "100000001");
             ("schedule_type", PStr "2"); ("use_cache", PBool true)].
Proof.
  assert (Hb : Cache.bind abyss_sig call_keyword.1 call_keyword.2
               = Some [("user_id", PInt 1); ("uid", PStr "100000001");
                       ("schedule_type", PStr "2"); ("use_cache", PBool true)])
    by (vm_compute; reflexivity).
  destruct (bind_orders_arguments _ _ _ _ Hb) as (_ & Hprefix & _).
  split; [exact Hprefix | exact Hb].
Defined.

Lemma ill_fitting_call_raises_type_error_witness :
  Cache.wrapped PNone one_hour abyss_sig flaky
    [PInt 1] {[ "uid" := PStr "100000001"; "server" := PStr "cn_gf01" ]}
    0 (cold 1)
  = (Raise TypeError, cold 1).
Proof.
  apply ill_fitting_call_raises_type_error.
  right. left. exists "server". split.
  - exists (PStr "cn_gf01"). reflexivity.
  - cbn. intros Hin.
    repeat (apply elem_of_cons in Hin as [Heq|Hin]; [discriminate|]).
    by apply elem_of_nil in Hin.
Defined.

Lemma stored_entries_have_time_witness :
  map_Forall (fun _ data => is_Some (Cache.time data))
    (Cache.cache_data
       (Cache.wrapped PNone one_hour abyss_sig flaky
          call_default.1 call_default.2 0 (cold 1)).2).
Proof.
  apply stored_entries_have_time. apply map_Forall_empty.
Defined.

Lemma other_entries_untouched_witness :
  Cache.cache_data
    (Cache.wrapped PNone one_hour abyss_sig flaky
       call_positional.1 call_positional.2 0 (cold 1)).2
  !! "user_id_1|uid_100000001|schedule_type_1|use_cache_True" = None.
Proof.
  rewrite other_entries_untouched; [reflexivity|].
  vm_compute. discriminate.
Defined.

Lemma same_key_shares_entry_witness :
  let first :=
    Cache.wrapped PNone one_hour abyss_sig flaky
      call_default.1 call_default.2 0 (cold 1) in
  first.1 = Return (PInt 1)
  /\ Cache.wrapped PNone one_hour abyss_sig flaky
       call_int_schedule.1 call_int_schedule.2 60 first.2
     = (Return (PInt 1), first.2).
Proof.
  apply (same_key_shares_entry PNone one_hour abyss_sig flaky
           call_default.1 call_default.2
           call_int_schedule.1 call_int_schedule.2
           "user_id_1|uid_100000001|schedule_type_1|use_cache_True"
           0 60 (cold 1) (PInt 1) 2%nat);
    try reflexivity.
  unfold one_hour. lia.
Defined.

(** ** [get_data.py]: errors, loops and results *)
Section wrapper_more.
Import GetData.
Context {W Hd Rs J : Type} `{!Collaborators W Hd Rs J}.
Implicit Types (w : W) (uid : string) (c : cookie_reply)
  (body : eff W (option (result J))).

(** X15: with an empty uid, [uid[0]] raises [IndexError] in each of the
    six wrappers before any collaborator is called. *)
Theorem empty_uid_raises_index_error
    fuel user_id schedule_type chara_id month use_cache w :
  get_abyss_data fuel user_id "" schedule_type use_cache w
  = Some (Raise IndexError, w)
  /\ get_player_card_data fuel user_id "" use_cache w
     = Some (Raise IndexError, w)
  /\ get_chara_detail_data fuel user_id "" use_cache w
     = Some (Raise IndexError, w)
  /\ get_daily_note_data "" w = (Raise IndexError, w)
  /\ get_chara_skill_data "" chara_id use_cache w = (Raise IndexError, w)
  /\ get_monthinfo_data "" month use_cache w = (Raise IndexError, w).
Proof. repeat split. Qed.

Lemma retry_never fuel body w :
  (forall w, exists w', body w = (Return None, w')) ->
  retry fuel body w = None.
Proof.
  intros Hrej. revert w. induction fuel as [|fuel IH]; intros w; [done|].
  simpl. destruct (Hrej w) as [w' ->]. apply IH.
Qed.

(** X16: the loops have no bound of their own.  While every iteration
    ends with a rejected cookie, the three looping wrappers return after
    no number of iterations. *)
Theorem always_rejected_never_returns
    user_id uid server_id schedule_type use_cache :
  server_of uid = Return server_id ->
  ((forall w, exists w',
      abyss_attempt user_id uid schedule_type server_id w
      = (Return None, w')) ->
   forall fuel w,
     get_abyss_data fuel user_id uid schedule_type use_cache w = None)
  /\ ((forall w, exists w',
         player_card_attempt user_id uid server_id w = (Return None, w')) ->
      forall fuel w, get_player_card_data fuel user_id uid use_cache w = None)
  /\ ((forall w, exists w',
         chara_detail_attempt user_id uid server_id w = (Return None, w')) ->
      forall fuel w, get_chara_detail_data fuel user_id uid use_cache w = None).
Proof.
  intros Hs. repeat split; intros Hrej fuel w.
  - unfold get_abyss_data, with_server. rewrite Hs. by apply retry_never.
  - unfold get_player_card_data, with_server. rewrite Hs. by apply retry_never.
  - unfold get_chara_detail_data, with_server. rewrite Hs.
    by apply retry_never.
Qed.

(** What a loop returns, one of its iterations returned. *)
Lemma retry_result (P : result J -> Prop) fuel body w r w' :
  (forall w r w', body w = (Return (Some r), w') -> P r) ->
  retry fuel body w = Some (Return r, w') -> P r.
Proof.
  intros Hbody. revert w. induction fuel as [|fuel IH]; intros w; [done|].
  simpl. destruct (body w) as [[[r0|]|e] w1] eqn:Hb.
  - intros [= <- <-]. by eapply Hbody.
  - apply IH.
  - done.
Qed.
Lemma retry_raises n fuel body w w1 w2 e :
  falls_through n body w w1 ->
  body w1 = (Raise e, w2) ->
  retry (n + S fuel) body w = Some (Raise e, w2).
Proof.
  intros Hn Hbody. rewrite (retry_falls_through _ _ _ _ _ Hn).
  simpl. by rewrite Hbody.
Qed.

(** Case analysis along the calls of a wrapper body. *)
Local Ltac along_the_calls :=
  repeat match goal with
  | |- context [match ?x with _ => _ end] =>
      destruct x eqn:?; simpl in *; try done
  | |- context [if ?b then _ else _] => destruct b eqn:?; simpl in *; try done
  end.

Lemma abyss_attempt_result user_id uid schedule_type server_id w r w' :
  abyss_attempt user_id uid schedule_type server_id w
  = (Return (Some r), w') ->
  r = Message no_public_cookie_msg \/ exists data, r = Data data.
Proof.
  unfold abyss_attempt, eff_bind, eff_ret, lift. along_the_calls;
    intros [= <- <-]; eauto.
Qed.

Lemma player_card_attempt_result user_id uid server_id w r w' :
  player_card_attempt user_id uid server_id w = (Return (Some r), w') ->
  r = Message no_public_cookie_msg \/ exists data, r = Data data.
Proof.
  unfold player_card_attempt, eff_bind, eff_ret, lift. along_the_calls;
    intros [= <- <-]; eauto.
Qed.

Lemma chara_detail_attempt_result user_id uid server_id w r w' :
  chara_detail_attempt user_id uid server_id w = (Return (Some r), w') ->
  r = Message no_public_cookie_msg \/ exists data, r = Data data.
Proof.
  unfold chara_detail_attempt, eff_bind, eff_ret, lift. along_the_calls;
    intros [= <- <-]; eauto.
Qed.

(** X17: what the looping wrappers return is the message about the empty
    pool or decoded JSON that [check_retcode] accepted as far as the loop
    is concerned: never [None], never another text. *)
Theorem looping_wrappers_return_message_or_data
    fuel user_id uid schedule_type use_cache w r w' :
  (get_abyss_data fuel user_id uid schedule_type use_cache w
   = Some (Return r, w') ->
   r = Message no_public_cookie_msg \/ exists data, r = Data data)
  /\ (get_player_card_data fuel user_id uid use_cache w
      = Some (Return r, w') ->
      r = Message no_public_cookie_msg \/ exists data, r = Data data)
  /\ (get_chara_detail_data fuel user_id uid use_cache w
      = Some (Return r, w') ->
      r = Message no_public_cookie_msg \/ exists data, r = Data data).
Proof.
  repeat split.
  - unfold get_abyss_data, with_server. destruct (server_of uid); [|done].
    intros Hr.
    eapply (retry_result
              (fun r => r = Message no_public_cookie_msg
                        \/ exists data, r = Data data)); [|exact Hr].
    apply abyss_attempt_result.
  - unfold get_player_card_data, with_server.
    destruct (server_of uid); [|done].
    intros Hr.
    eapply (retry_result
              (fun r => r = Message no_public_cookie_msg
                        \/ exists data, r = Data data)); [|exact Hr].
    apply player_card_attempt_result.
  - unfold get_chara_detail_data, with_server.
    destruct (server_of uid); [|done].
    intros Hr.
    eapply (retry_result
              (fun r => r = Message no_public_cookie_msg
                        \/ exists data, r = Data data)); [|exact Hr].
    apply chara_detail_attempt_result.
Qed.

(** X18: no wrapper catches anything.  When the cookie collaborator
    raises, or hands back a dictionary that is not empty and has no
    ['cookie'] field, so that [cookie['cookie']] raises [KeyError], the
    wrapper raises that exception, the looping ones after any number of
    rejected cookies. *)
Theorem cookie_step_errors_propagate
    user_id uid server_id schedule_type chara_id month use_cache
    n fuel w w1 w2 e :
  server_of uid = Return server_id ->
  let fails (step : outcome cookie_reply * W) :=
    step = (Raise e, w2)
    \/ exists d, step = (Return (Some d), w2) /\ d ≠ ∅
                 /\ d !! "cookie" = None /\ e = KeyError in
  (falls_through n (abyss_attempt user_id uid schedule_type server_id) w w1 ->
   fails (get_use_cookie user_id uid "查询深渊" w1) ->
   get_abyss_data (n + S fuel) user_id uid schedule_type use_cache w
   = Some (Raise e, w2))
  /\ (falls_through n (player_card_attempt user_id uid server_id) w w1 ->
      fails (get_use_cookie user_id uid "查询原神卡片" w1) ->
      get_player_card_data (n + S fuel) user_id uid use_cache w
      = Some (Raise e, w2))
  /\ (falls_through n (chara_detail_attempt user_id uid server_id) w w1 ->
      fails (get_use_cookie user_id uid "查询角色详情" w1) ->
      get_chara_detail_data (n + S fuel) user_id uid use_cache w
      = Some (Raise e, w2))
  /\ (fails (get_own_cookie uid "查询实时便签" w) ->
      get_daily_note_data uid w = (Raise e, w2))
  /\ (fails (get_own_cookie uid "查询角色天赋" w) ->
      get_chara_skill_data uid chara_id use_cache w = (Raise e, w2))
  /\ (fails (get_own_cookie uid "查询每月札记" w) ->
      get_monthinfo_data uid month use_cache w = (Raise e, w2)).
Proof.
  intros Hs fails.
  assert (Htruthy : forall d : gmap string string,
            d ≠ ∅ -> truthy (Some d) = true).
  { intros d Hne. simpl. by rewrite bool_decide_eq_false_2. }
  repeat split.
  - intros Hn Hfail. unfold get_abyss_data, with_server. rewrite Hs.
    eapply retry_raises; [exact Hn|].
    unfold abyss_attempt, eff_bind, lift.
    destruct Hfail as [->|(d & -> & Hne & Hk & ->)]; [done|].
    rewrite (Htruthy d Hne). simpl. by rewrite Hk.
  - intros Hn Hfail. unfold get_player_card_data, with_server. rewrite Hs.
    eapply retry_raises; [exact Hn|].
    unfold player_card_attempt, eff_bind, lift.
    destruct Hfail as [->|(d & -> & Hne & Hk & ->)]; [done|].
    rewrite (Htruthy d Hne). simpl. by rewrite Hk.
  - intros Hn Hfail. unfold get_chara_detail_data, with_server. rewrite Hs.
    eapply retry_raises; [exact Hn|].
    unfold chara_detail_attempt, eff_bind, lift.
    destruct Hfail as [->|(d & -> & Hne & Hk & ->)]; [done|].
    rewrite (Htruthy d Hne). simpl. by rewrite Hk.
  - intros Hfail. unfold get_daily_note_data, eff_bind, lift. rewrite Hs.
    destruct Hfail as [->|(d & -> & Hne & Hk & ->)]; [done|].
    rewrite (Htruthy d Hne). simpl. by rewrite Hk.
  - intros Hfail. unfold get_chara_skill_data, eff_bind, lift. rewrite Hs.
    destruct Hfail as [->|(d & -> & Hne & Hk & ->)]; [done|].
    rewrite (Htruthy d Hne). simpl. by rewrite Hk.
  - intros Hfail. unfold get_monthinfo_data, eff_bind, lift. rewrite Hs.
    destruct Hfail as [->|(d & -> & Hne & Hk & ->)]; [done|].
    rewrite (Htruthy d Hne). simpl. by rewrite Hk.
Qed.
End wrapper_more.

Lemma always_rejected_never_returns_witness :
  @GetData.get_abyss_data nat unit unit unit endless_pool 1000
    (PInt 1) "100000001" (PStr "1") (PBool true) 0%nat = None.
Proof.
  apply (proj1 (@always_rejected_never_returns nat unit unit unit
                  endless_pool (PInt 1) "100000001" "cn_gf01" (PStr "1")
                  (PBool true) eq_refl)).
  intros n. exists (S n). reflexivity.
Defined.

Lemma looping_wrappers_return_message_or_data_witness :
  let r : GetData.result unit :=
    GetData.Message GetData.no_public_cookie_msg in
  @GetData.get_abyss_data nat unit unit unit (rejected_pool 2) 3
    (PInt 1) "100000001" (PStr "1") (PBool true) 0%nat
  = Some (Return r, 2%nat)
  /\ (r = GetData.Message GetData.no_public_cookie_msg
      \/ exists data, r = GetData.Data data).
Proof.
  intros r. split; [reflexivity|].
  destruct (@looping_wrappers_return_message_or_data nat unit unit unit
              (rejected_pool 2) 3 (PInt 1) "100000001" (PStr "1")
              (PBool true) 0%nat r 2%nat)
    as (Habyss & _).
  apply Habyss. reflexivity.
Defined.

Lemma cookie_step_errors_propagate_witness :
  @GetData.get_abyss_data nat unit unit unit failing_pool 1
    (PInt 1) "100000001" (PStr "1") (PBool true) 0%nat
  = Some (Raise (Failure "database is locked"), 1%nat)
  /\ @GetData.get_daily_note_data nat unit unit unit fieldless_pool
       "100000001" 0%nat
     = (Raise KeyError, 1%nat).
Proof.
  destruct (@cookie_step_errors_propagate nat unit unit unit failing_pool
              (PInt 1) "100000001" "cn_gf01" (PStr "1") (PInt 10000002)
              (PInt 7) (PBool true) 0 0 0%nat 0%nat 1%nat
              (Failure "database is locked") eq_refl)
    as (Habyss & _).
  destruct (@cookie_step_errors_propagate nat unit unit unit fieldless_pool
              (PInt 1) "100000001" "cn_gf01" (PStr "1") (PInt 10000002)
              (PInt 7) (PBool true) 0 0 0%nat 0%nat 1%nat
              KeyError eq_refl)
    as (_ & _ & _ & Hnote & _).
  split.
  - apply Habyss; [reflexivity|]. left. reflexivity.
  - apply Hnote. right. exists {[ "type" := "public" ]}.
    split; [reflexivity|]. split; [|split; reflexivity].
    apply insert_non_empty.
Defined.

(** ** [get_bind_game]: the uid searched in the cookie *)
Section bind_game_more.
Import GetData.

Lemma take_digits_spec n s :
  digits_only (take_digits n s) = true
  /\ (String.length (take_digits n s) <= n)%nat
  /\ exists post,
       s = take_digits n s +:+ post
       /\ (String.length (take_digits n s) = n \/ digit_ahead post = false).
Proof.
  revert s. induction n as [|n IH]; intros s; simpl.
  - repeat split; [lia|]. exists s. split; [done | by left].
  - destruct s as [|c s]; simpl.
    { repeat split; [lia|]. exists "". split; [done | by right]. }
    destruct (is_digit c) eqn:Hc; simpl.
    + destruct (IH s) as (Hd & Hlen & post & Hpost & Hmax).
      rewrite Hc, Hd. repeat split; [lia|].
      exists post. split.
      * change (String c s = String c (take_digits n s +:+ post)).
        by f_equal.
      * destruct Hmax as [Hfull|Hstop]; [left; by rewrite Hfull | by right].
    + repeat split; [lia|]. exists (String c s). split; [done|].
      right. exact Hc.
Qed.

Lemma take_digits_long n ds post :
  digits_only ds = true ->
  (Nat.min n (String.length ds) <= String.length (take_digits n (ds +:+ post)))%nat.
Proof.
  revert ds. induction n as [|n IH]; intros ds Hd; simpl; [lia|].
  destruct ds as [|c ds]; simpl in *; [lia|].
  apply andb_prop in Hd as [Hc Hd]. rewrite Hc. simpl.
  specialize (IH ds Hd). lia.
Qed.

(** Of a run of digits that is long enough, [take_digits] takes the first
    [n]. *)
Lemma take_digits_head n ds post :
  digits_only ds = true -> (n <= String.length ds)%nat ->
  take_digits n (ds +:+ post) = substring 0 n ds.
Proof.
  revert ds. induction n as [|n IH]; intros ds Hd Hlen.
  - by destruct ds.
  - destruct ds as [|c ds]; simpl in *; [lia|].
    apply andb_prop in Hd as [Hc Hd]. rewrite Hc. f_equal.
    apply IH; [done | lia].
Qed.

Lemma strip_prefix_spec prefix s rest :
  strip_prefix prefix s = Some rest <-> s = prefix +:+ rest.
Proof.
  revert s. induction prefix as [|a prefix IH]; intros s; simpl.
  - split; [by intros [= ->] | by intros ->].
  - destruct s as [|b s]; [done|].
    case_decide as Hab.
    + subst b. rewrite IH. split; [by intros -> | by intros [= ->]].
    + split; [done | by intros [= ? _]].
Qed.

Lemma match_account_id_spec s uid :
  match_account_id s = Some uid ->
  (6 <= String.length uid <= 12)%nat
  /\ digits_only uid = true
  /\ exists post,
       s = "account_id=" +:+ uid +:+ post
       /\ (String.length uid = 12%nat \/ digit_ahead post = false).
Proof.
  unfold match_account_id.
  destruct (strip_prefix "account_id=" s) as [rest|] eqn:Hp; [|done].
  apply strip_prefix_spec in Hp.
  destruct (take_digits_spec 12 rest) as (Hd & Hlen & post & Hpost & Hmax).
  cbv zeta. generalize dependent (take_digits 12 rest). intros digits.
  destruct (6 <=? String.length digits)%nat eqn:Hsix; [|done].
  intros Hd Hlen Hpost Hmax [= <-]. apply Nat.leb_le in Hsix.
  split; [done|]. split; [done|]. exists post. split; [congruence | done].
Qed.

Lemma match_account_id_complete ds post :
  digits_only ds = true -> (6 <= String.length ds)%nat ->
  is_Some (match_account_id ("account_id=" +:+ ds +:+ post)).
Proof.
  intros Hd Hlen. unfold match_account_id.
  rewrite (proj2 (strip_prefix_spec "account_id=" _ (ds +:+ post)) eq_refl).
  pose proof (take_digits_long 12 ds post Hd) as Hlong.
  cbv zeta. generalize dependent (take_digits 12 (ds +:+ post)).
  intros digits Hlong.
  destruct (6 <=? String.length digits)%nat eqn:Hsix; [by eexists|].
  apply Nat.leb_gt in Hsix. lia.
Qed.

Lemma search_account_id_spec s uid :
  search_account_id s = Some uid ->
  exists pre post,
    s = pre +:+ "account_id=" +:+ uid +:+ post
    /\ (6 <= String.length uid <= 12)%nat
    /\ digits_only uid = true
    /\ (String.length uid = 12%nat \/ digit_ahead post = false)
    /\ forall pre' ds post',
         digits_only ds = true -> (6 <= String.length ds)%nat ->
         s = pre' +:+ "account_id=" +:+ ds +:+ post' ->
         (String.length pre <= String.length pre')%nat.
Proof.
  induction s as [|c s IH]; [done|].
  cbn [search_account_id].
  destruct (match_account_id (String c s)) as [u|] eqn:Hm.
  - intros [= ->].
    destruct (match_account_id_spec _ _ Hm) as (? & ? & post & ? & ?).
    exists "", post. repeat (split; [done|]).
    intros pre' ds post' _ _ _. simpl. lia.
  - intros Hs.
    destruct (IH Hs) as (pre & post & -> & ? & ? & ? & Hleft).
    exists (String c pre), post. repeat (split; [done|]).
    intros pre' ds post' Hd Hlen Heq. destruct pre' as [|c' pre'].
    + change ("" +:+ ?x) with x in Heq.
      destruct (match_account_id_complete ds post' Hd Hlen) as [u Hu].
      rewrite <- Heq in Hu. congruence.
    + change (String c' pre' +:+ ?x) with (String c' (pre' +:+ x)) in Heq.
      injection Heq as _ Heq. simpl.
      specialize (Hleft pre' ds post' Hd Hlen Heq). lia.
Qed.

Lemma search_account_id_complete pre ds post :
  digits_only ds = true -> (6 <= String.length ds)%nat ->
  is_Some (search_account_id (pre +:+ "account_id=" +:+ ds +:+ post)).
Proof.
  intros Hd Hlen.
  pose proof (match_account_id_complete ds post Hd Hlen) as Hhere.
  induction pre as [|c pre IH].
  - change ("" +:+ ?x) with x.
    destruct Hhere as [uid Huid].
    destruct ("account_id=" +:+ ds +:+ post) as [|c s]; cbn [search_account_id];
      rewrite Huid; by eexists.
  - change (String c pre +:+ ?x) with (String c (pre +:+ x)).
    cbn [search_account_id].
    destruct (match_account_id (String c _)) as [u|];
      [exists u; reflexivity | exact IH].
Qed.

Lemma search_account_id_at_head ds post :
  digits_only ds = true -> (12 <= String.length ds)%nat ->
  search_account_id ("account_id=" +:+ ds +:+ post)
  = Some (substring 0 12 ds).
Proof.
  intros Hd Hlen.
  assert (Hm : match_account_id ("account_id=" +:+ ds +:+ post)
               = Some (substring 0 12 ds)).
  { unfold match_account_id.
    rewrite (proj2 (strip_prefix_spec "account_id=" _ (ds +:+ post)) eq_refl).
    rewrite (take_digits_head 12 ds post Hd Hlen).
    pose proof (take_digits_long 12 ds post Hd) as Hlong.
    rewrite (take_digits_head 12 ds post Hd Hlen) in Hlong.
    cbv zeta. generalize dependent (substring 0 12 ds). intros digits Hlong.
    destruct (6 <=? String.length digits)%nat eqn:Hsix; [done|].
    apply Nat.leb_gt in Hsix. lia. }
  destruct ("account_id=" +:+ ds +:+ post) as [|c s]; cbn [search_account_id];
    by rewrite Hm.
Qed.

Section with_collaborators.
Context {W Hd Rs J : Type} `{!Collaborators W Hd Rs J}.

(** X19: the uid [get_bind_game] returns is read off the cookie at the
    first [account_id=] that six digits follow: it is the run of digits
    there, cut at 12, so either 12 digits long or followed by no digit.
    Of a run of 12 digits or more at the head of the cookie it is the
    first 12.  A cookie with no [account_id=] followed by 6 digits gets
    [None] and no request is made; a cookie that has one never gets
    [None]. *)
Theorem bind_game_uid_comes_from_cookie (cookie : string) (w : W) :
  ascii_text cookie = true ->
  (forall data uid w',
     get_bind_game cookie w = (Return (Some (data, uid)), w') ->
     exists pre post,
       cookie = pre +:+ "account_id=" +:+ uid +:+ post
       /\ (6 <= String.length uid <= 12)%nat
       /\ digits_only uid = true
       /\ (String.length uid = 12%nat \/ digit_ahead post = false)
       /\ forall pre' ds post',
            digits_only ds = true -> (6 <= String.length ds)%nat ->
            cookie = pre' +:+ "account_id=" +:+ ds +:+ post' ->
            (String.length pre <= String.length pre')%nat)
  /\ (forall ds post data uid w',
        digits_only ds = true -> (12 <= String.length ds)%nat ->
        cookie = "account_id=" +:+ ds +:+ post ->
        get_bind_game cookie w = (Return (Some (data, uid)), w') ->
        uid = substring 0 12 ds)
  /\ ((forall pre ds post,
         digits_only ds = true -> (6 <= String.length ds)%nat ->
         cookie ≠ pre +:+ "account_id=" +:+ ds +:+ post) ->
      get_bind_game cookie w = (Return None, w))
  /\ (forall pre ds post w',
        digits_only ds = true -> (6 <= String.length ds)%nat ->
        cookie = pre +:+ "account_id=" +:+ ds +:+ post ->
        get_bind_game cookie w ≠ (Return None, w')).
Proof.
  intros _. unfold get_bind_game, eff_bind, eff_ret.
  split; [|split; [|split]].
  - intros data uid w'.
    destruct (search_account_id cookie) as [u|] eqn:Hs; [|done].
    destruct (get_headers_q _ _ _) as [[h|?] w1]; [|done].
    destruct (http_get _ _ _ _) as [[res|?] w2]; [|done].
    destruct (json _ _) as [[d|?] w3]; [|done].
    intros [= _ <- _]. by apply search_account_id_spec.
  - intros ds post data uid w' Hd' Hlen ->.
    rewrite (search_account_id_at_head ds post Hd' Hlen).
    destruct (get_headers_q _ _ _) as [[h|?] w1]; [|done].
    destruct (http_get _ _ _ _) as [[res|?] w2]; [|done].
    destruct (json _ _) as [[d|?] w3]; [|done].
    by intros [= _ <- _].
  - intros Hnone.
    destruct (search_account_id cookie) as [u|] eqn:Hs; [|done].
    destruct (search_account_id_spec _ _ Hs)
      as (pre & post & Hc & Hlen & Hd' & _).
    destruct (Hnone pre u post); [done | lia | done].
  - intros pre ds post w' Hd' Hlen ->.
    destruct (search_account_id_complete pre ds post Hd' Hlen) as [u ->].
    destruct (get_headers_q _ _ _) as [[h|?] w1]; [|done].
    destruct (http_get _ _ _ _) as [[res|?] w2]; [|done].
    destruct (json _ _) as [[d|?] w3]; done.
Qed.
End with_collaborators.
End bind_game_more.

Lemma bind_game_uid_comes_from_cookie_witness :
  @GetData.get_bind_game nat unit unit unit (rejected_pool 0)
    "account_id=1234567890123; cookie_token=abc" 0%nat
  = (Return (Some ((), "123456789012")), 0%nat)
  /\ "123456789012" = substring 0 12 "1234567890123".
Proof.
  split; [reflexivity|].
  destruct (@bind_game_uid_comes_from_cookie nat unit unit unit
              (rejected_pool 0)
              "account_id=1234567890123; cookie_token=abc"
              0%nat eq_refl) as (_ & Hcut & _).
  apply (Hcut "1234567890123" "; cookie_token=abc" () "123456789012" 0%nat);
    [reflexivity | simpl; lia | reflexivity | reflexivity].
Defined.

(** ** [get_data.py]: the wrappers that use the user's own cookie *)
Section own_cookie_more.
Import GetData.
Context {W Hd Rs J : Type} `{!Collaborators W Hd Rs J}.
Implicit Types (w : W) (uid : string).

Local Ltac through_the_calls :=
  repeat match goal with
  | |- context [match ?x with _ => _ end] =>
      destruct x eqn:?; simpl in *; try done
  | |- context [if ?b then _ else _] => destruct b eqn:?; simpl in *; try done
  end.

(** X20: the three wrappers on the user's own cookie differ in what they
    can return.  [get_daily_note_data] returns its message or decoded
    JSON, never [None]; [get_chara_skill_data] returns [None] or decoded
    JSON, never a message; [get_monthinfo_data] returns [None] only after
    a cookie was found, when [check_retcode] turned the answer down. *)
Theorem own_cookie_wrappers_results uid chara_id month use_cache w r w' :
  (get_daily_note_data uid w = (Return r, w') ->
   (exists msg, r = Message msg) \/ (exists data, r = Data data))
  /\ (get_chara_skill_data uid chara_id use_cache w = (Return r, w') ->
      r = NoneResult \/ (exists data, r = Data data))
  /\ (get_monthinfo_data uid month use_cache w = (Return r, w') ->
      r = NoneResult ->
      exists c w1 data w2,
        get_own_cookie uid "查询每月札记" w = (Return c, w1)
        /\ truthy c = true
        /\ check_retcode data c uid w2 = (Return false, w')).
Proof.
  split; [|split].
  - unfold get_daily_note_data, eff_bind, eff_ret, lift.
    through_the_calls; intros [= <- <-]; eauto.
  - unfold get_chara_skill_data, eff_bind, eff_ret, lift.
    through_the_calls; intros [= <- <-]; eauto.
  - unfold get_monthinfo_data, eff_bind, eff_ret, lift.
    destruct (server_of uid) as [server_id|]; [|done].
    destruct (get_own_cookie uid _ w) as [[c|] w1]; [|done].
    destruct (truthy c) eqn:Hc; simpl; [|by intros [= <- _]].
    destruct (cookie_field c) as [ck|]; [|done].
    destruct (update_cookie_cache _ _ _ _) as [[[]|] wa]; [|done].
    destruct (get_headers_q _ _ _) as [[h|] wb]; [|done].
    destruct (int_of month) as [m|]; [|done].
    destruct (http_get _ _ _ _) as [[res|] wc]; [|done].
    destruct (json _ _) as [[data|] wd]; [|done].
    destruct (check_retcode data c uid wd) as [[[]|] we] eqn:Hcheck;
      [by intros [= <- _] | | done].
    intros [= _ <-] _. by exists c, w1, data, wd.
Qed.
End own_cookie_more.

Lemma own_cookie_wrappers_results_witness :
  exists msg : string,
    (GetData.Message msg : GetData.result unit) = GetData.Message msg
    /\ @GetData.get_daily_note_data nat unit unit unit (rejected_pool 0)
         "100000001" 0%nat
       = (Return (GetData.Message msg), 0%nat).
Proof.
  destruct (@own_cookie_wrappers_results nat unit unit unit (rejected_pool 0)
              "100000001" (PInt 10000002) (PInt 7) (PBool true) 0%nat
              (GetData.Message
                 ("你的uid" +:+ "100000001"
                  +:+ "没有绑定对应的cookie,使用ysb绑定才能用实时便签哦!"))
              0%nat) as (Hnote & _).
  destruct (Hnote eq_refl) as [[msg Hmsg]|[data Hdata]]; [|discriminate].
  exists msg. split; [reflexivity|]. rewrite <- Hmsg. reflexivity.
Defined.

(** ** [check_resource] *)
Section resource_facts.
Import Resource.
Context {W : Type} (H : Host W).
Implicit Types (w : W) (t : list action) (resource : gmap string jval).

Lemma keep_file_trace resource file_path w t keep w' t' :
  @keep_file _ (traced H) resource file_path (w, t)
  = (Return keep, (w', t')) ->
  (keep = true /\ t' = t)
  \/ (keep = false /\ (t' = t \/ t' = t ++ [Unlink file_path])).
Proof.
  unfold keep_file, eff_bind, eff_ret, lift, getitem.
  cbn. unfold noted, unnoted. cbn.
  destruct (path_exists file_path w) as [[[]|] w1]; cbn; try done.
  - destruct (resource !! "lock") as [lock|]; cbn; [|done].
    destruct (jtruthy lock); cbn.
    + destruct (read_bytes file_path w1) as [[data|] w2]; cbn; [|done].
      destruct (resource !! "hash") as [hash|]; cbn; [|done].
      destruct (str_eq (md5_hex data) hash); cbn.
      * intros [= <- <- <-]. by left.
      * destruct (unlink file_path w2) as [[[]|] w3]; cbn; [|done].
        intros [= <- <- <-]. right. split; [done | by right].
    + intros [= <- <- <-]. by left.
  - intros [= <- <- <-]. right. split; [done | by left].
Qed.

Lemma fetch_file_trace name w t flag' w' t' :
  @fetch_file _ (traced H) name (resource_path name) (w, t)
  = (Return flag', (w', t')) ->
  flag' = true
  /\ exists tail,
       (tail = [Sleep] \/ tail = [Warning (msg_failed name)]
        \/ tail = [Sleep; Warning (msg_failed name)])
       /\ t' = t ++ Download (github_proxy +:+ resource_url +:+ name)
                      (resource_path name)
                      (exclude_json name)
                    :: tail.
Proof.
  unfold fetch_file, try_except, eff_bind, eff_ret.
  cbn. unfold noted. cbn.
  destruct (download _ _ _ w) as [[[]|e] w1]; cbn.
  - destruct (sleep w1) as [[[]|e] w2]; cbn.
    + intros [= <- <- <-]. split; [done|].
      exists [Sleep]. split; [by left|]. by rewrite <- app_assoc.
    + destruct (is_exception e); [|done].
      destruct (log_warning _ w2) as [[[]|] w3]; cbn; [|done].
      intros [= <- <- <-]. split; [done|].
      exists [Sleep; Warning (msg_failed name)]. split; [by right; right|].
      by rewrite <- !app_assoc.
  - destruct (is_exception e); [|done].
    destruct (log_warning _ w1) as [[[]|] w2]; cbn; [|done].
    intros [= <- <- <-]. split; [done|].
    exists [Warning (msg_failed name)]. split; [by right; left|].
    by rewrite <- !app_assoc.
Qed.

Lemma sync_entry_block resource flag w t flag' w' t' :
  @sync_entry _ (traced H) resource flag (w, t) = (Return flag', (w', t')) ->
  exists name block,
    resource !! "path" = Some (JStr name)
    /\ t' = t ++ block
    /\ entry_block name block
    /\ flag' = flag || busy block.
Proof.
  unfold sync_entry, eff_bind, lift, getitem.
  destruct (resource !! "path") as [[| | |name]|] eqn:Hpath; try done.
  cbn [as_str].
  change (@resource_path _ (traced H) name) with (resource_path name).
  destruct (@keep_file _ (traced H) resource (resource_path name) (w, t))
    as [[keep|] [w1 t1]] eqn:Hkeep; [|done].
  apply keep_file_trace in Hkeep.
  destruct keep.
  - intros [= <- <- <-]. destruct Hkeep as [[_ ->]|[? _]]; [|done].
    exists name, []. rewrite app_nil_r, orb_false_r.
    repeat split; try done. by left.
  - intros Hfetch. apply fetch_file_trace in Hfetch as (-> & tail & Htail & ->).
    destruct Hkeep as [[? _]|[_ Ht1]]; [done|].
    exists name. destruct Ht1 as [->| ->].
    + eexists. split; [done|]. split; [done|]. split.
      * right. exists [], tail. split; [by left|]. split; [done|]. done.
      * by rewrite orb_true_r.
    + eexists. split; [done|]. split; [by rewrite <- app_assoc|]. split.
      * right. exists [Unlink (resource_path name)], tail.
        split; [by right|]. split; [done|]. done.
      * by rewrite orb_true_r.
Qed.
Lemma sync_all_blocks resource_list flag w t flag' w' t' :
  @sync_all _ (traced H) resource_list flag (w, t)
  = (Return flag', (w', t')) ->
  exists blocks,
    Forall2 (fun resource block =>
               exists name, resource !! "path" = Some (JStr name)
                            /\ entry_block name block)
      resource_list blocks
    /\ t' = t ++ concat blocks
    /\ flag' = flag || existsb busy blocks.
Proof.
  revert flag w t.
  induction resource_list as [|resource rest IH]; intros flag w t.
  - cbn. intros [= <- <- <-]. exists [].
    split; [constructor|]. by rewrite app_nil_r, orb_false_r.
  - cbn [sync_all]. unfold eff_bind at 1.
    destruct (@sync_entry _ (traced H) resource flag (w, t))
      as [[flag1|] [w1 t1]] eqn:Hentry; [|done].
    apply sync_entry_block in Hentry
      as (name & block & Hpath & -> & Hblock & ->).
    intros Hrest. apply IH in Hrest as (blocks & Hall & -> & ->).
    exists (block :: blocks). split; [constructor; eauto|].
    cbn. by rewrite <- app_assoc, orb_assoc.
Qed.

(** X21: what a run that comes to its end has done, in order.  Either the
    list could not be read, and but for the two log lines nothing was
    done.  Or each entry of the list in turn got nothing, or a download,
    preceded by the deletion of its file or not and followed by the pause,
    by the warning or by both; the closing line says "downloaded" exactly
    when some download was started, be it that every one failed. *)
Theorem check_resource_trace w w' trace :
  @check_resource _ (traced H) (w, []) = (Return (), (w', trace)) ->
  trace = [Info msg_start; Info msg_no_list]
  \/ exists w1 w2 resource_list blocks,
       fetch_list (github_proxy +:+ manifest_url) w1
       = (Return resource_list, w2)
       /\ Forall2 (fun resource block =>
                     exists name, resource !! "path" = Some (JStr name)
                                  /\ entry_block name block)
            resource_list blocks
       /\ trace
          = Info msg_start :: concat blocks
            ++ [Info (if existsb busy blocks then msg_done else msg_intact)].
Proof.
  unfold check_resource, try_except, eff_bind, eff_ret.
  cbn. unfold noted, unnoted. cbn.
  destruct (log_info msg_start w) as [[[]|] w1]; cbn; [|done].
  destruct (fetch_list _ w1) as [[resource_list|e] w2] eqn:Hlist; cbn.
  - destruct (@sync_all _ (traced H) resource_list false
                (w2, [Info msg_start])) as [[flag|] [w3 t3]] eqn:Hall;
      [|done].
    apply sync_all_blocks in Hall as (blocks & Hblocks & -> & ->).
    cbn [orb].
    intros Hclose. right. exists w1, w2, resource_list, blocks.
    split; [done|]. split; [done|].
    destruct (existsb busy blocks); cbn in Hclose;
      destruct (log_info _ w3) as [[[]|] w4]; cbn in Hclose; try done;
      by injection Hclose as <- <-.
  - destruct (is_exception e); [|done].
    destruct (log_info msg_no_list w2) as [[[]|] w3]; cbn; [|done].
    intros [= <- <-]. by left.
Qed.

Section quiet_disk.
(** A logger that does not fail, and a file system on which looking for
    a file, reading a file found and deleting do not fail. *)
Hypothesis log_info_returns : forall message w, (log_info message w).1 = Return ().
Hypothesis log_warning_returns :
  forall message w, (log_warning message w).1 = Return ().
Hypothesis path_exists_returns :
  forall path w, exists present, (path_exists path w).1 = Return present.
Hypothesis read_bytes_returns :
  forall path w w1,
    path_exists path w = (Return true, w1) ->
    exists data, (read_bytes path w1).1 = Return data.
Hypothesis unlink_returns : forall path w, (unlink path w).1 = Return ().
(** A network and a pause that fail with instances of [Exception] only:
    the task is not cancelled or interrupted in them. *)
Hypothesis fetch_list_raises_exception :
  forall url w e w', fetch_list url w = (Raise e, w') -> is_exception e = true.
Hypothesis download_raises_exception :
  forall url path b w e w',
    download url path b w = (Raise e, w') -> is_exception e = true.
Hypothesis sleep_raises_exception :
  forall w e w', sleep w = (Raise e, w') -> is_exception e = true.

Lemma fetch_file_returns name file_path w :
  (fetch_file name file_path w).1 = Return true.
Proof.
  unfold fetch_file, try_except, eff_bind, eff_ret.
  destruct (download _ _ _ w) as [[[]|e] w1] eqn:Hdown.
  - destruct (sleep w1) as [[[]|e] w2] eqn:Hsleep; [done|].
    rewrite (sleep_raises_exception _ _ _ Hsleep).
    pose proof (log_warning_returns (msg_failed name) w2) as Hlog.
    by destruct (log_warning _ w2) as [[[]|] w3].
  - rewrite (download_raises_exception _ _ _ _ _ _ Hdown).
    pose proof (log_warning_returns (msg_failed name) w1) as Hlog.
    by destruct (log_warning _ w1) as [[[]|] w2].
Qed.

Lemma sync_entry_returns resource flag w :
  well_formed resource ->
  exists flag', (sync_entry resource flag w).1 = Return flag'.
Proof.
  intros ([name Hpath] & [lock Hlock] & [hash Hhash]).
  unfold sync_entry, keep_file, eff_bind, eff_ret, lift, getitem.
  rewrite Hpath. cbn [as_str].
  destruct (path_exists_returns (resource_path name) w) as [present Hp].
  destruct (path_exists _ w) as [[?|] w1] eqn:Hfound; [|done].
  injection Hp as ->.
  assert (Hfetch : forall w2, exists flag',
            (fetch_file name (resource_path name) w2).1 = Return flag')
    by (intros w2; eexists; apply fetch_file_returns).
  destruct present; [|apply Hfetch].
  rewrite Hlock. destruct (jtruthy lock); cbn; [|by eexists].
  destruct (read_bytes_returns (resource_path name) w w1 Hfound)
    as [data Hd].
  destruct (read_bytes _ w1) as [[?|] w2]; [|done]. injection Hd as ->.
  rewrite Hhash. destruct (str_eq _ hash); [by eexists|].
  pose proof (unlink_returns (resource_path name) w2) as Hu.
  destruct (unlink _ w2) as [[[]|] w3]; [|done]. apply Hfetch.
Qed.

Lemma sync_all_returns resource_list flag w :
  Forall well_formed resource_list ->
  exists flag', (sync_all resource_list flag w).1 = Return flag'.
Proof.
  intros Hall. revert flag w.
  induction Hall as [|resource rest Hwf _ IH]; intros flag w.
  - by exists flag.
  - cbn [sync_all]. unfold eff_bind at 1.
    destruct (sync_entry_returns resource flag w Hwf) as [flag1 Hentry].
    destruct (sync_entry resource flag w) as [[?|] w1]; [|done].
    apply IH.
Qed.

(** X22: with a file system and a logger that do not fail, a manifest
    whose entries have their three fields, and a network and a pause that
    fail with instances of [Exception] only, [check_resource] does not
    raise: a manifest that cannot be fetched or decoded and downloads that
    fail, each and all, end in a log line. *)
Theorem check_resource_outlives_the_network w :
  (forall url w1 resource_list w2,
     fetch_list url w1 = (Return resource_list, w2) ->
     Forall well_formed resource_list) ->
  (check_resource w).1 = Return ().
Proof.
  intros Hwf. unfold check_resource, try_except, eff_bind, eff_ret.
  pose proof (log_info_returns msg_start w) as Hstart.
  destruct (log_info msg_start w) as [[[]|] w1]; [|done].
  destruct (fetch_list _ w1) as [[resource_list|e] w2] eqn:Hlist.
  - apply Hwf in Hlist.
    destruct (sync_all_returns resource_list false w2 Hlist) as [flag Hall].
    destruct (sync_all resource_list false w2) as [[?|] w3]; [|done].
    injection Hall as ->. destruct flag; apply log_info_returns.
  - rewrite (fetch_list_raises_exception _ _ _ _ Hlist).
    pose proof (log_info_returns msg_no_list w2) as Hlog.
    by destruct (log_info msg_no_list w2) as [[[]|] w3].
Qed.
End quiet_disk.

(** What no [except Exception] holds back: a cancellation that arrives in
    the manifest request leaves [check_resource] as it came. *)
Lemma cancellation_passes_through w w1 w2 e :
  log_info msg_start w = (Return (), w1) ->
  fetch_list (github_proxy +:+ manifest_url) w1 = (Raise e, w2) ->
  is_exception e = false ->
  check_resource w = (Raise e, w2).
Proof.
  intros Hstart Hlist He.
  unfold check_resource, try_except, eff_bind, eff_ret.
  by rewrite Hstart, Hlist, He.
Qed.

Lemma sync_all_app before rest flag w :
  sync_all (before ++ rest) flag w
  = match sync_all before flag w with
    | (Return flag', w') => sync_all rest flag' w'
    | (Raise e, w') => (Raise e, w')
    end.
Proof.
  revert flag w. induction before as [|resource before IH]; intros flag w.
  - done.
  - cbn [app sync_all]. unfold eff_bind.
    destruct (sync_entry resource flag w) as [[flag1|e] w1]; [apply IH | done].
Qed.

(** X23: an entry without its ['path'], wherever it stands in the
    manifest, is not caught by any [except]: once the entries before it
    have been gone through, the [KeyError] leaves [check_resource] at that
    entry, from the world those entries left; the entries after it are
    not looked at and no closing line is logged. *)
Theorem entry_without_path_raises_key_error
    before resource rest flag w w1 w2 w3 :
  log_info msg_start w = (Return (), w1) ->
  fetch_list (github_proxy +:+ manifest_url) w1
  = (Return (before ++ resource :: rest), w2) ->
  sync_all before false w2 = (Return flag, w3) ->
  resource !! "path" = None ->
  check_resource w = (Raise KeyError, w3).
Proof.
  intros Hstart Hlist Hbefore Hpath.
  unfold check_resource, try_except, eff_bind, eff_ret.
  rewrite Hstart, Hlist, sync_all_app, Hbefore. cbn [sync_all].
  unfold eff_bind, sync_entry, lift, getitem.
  by rewrite Hpath.
Qed.

(** X24: which files the loop leaves alone.  A file that exists is kept,
    with nothing done, when the entry's lock is falsy, whatever its hash,
    and when the lock is set and the file's MD5 is the entry's hash.  With
    the lock set and another hash the file is deleted before the download
    starts, and when that download fails with an [Exception] it stays
    deleted: the warning is logged and the entry still counts as
    downloaded. *)
Theorem kept_and_replaced_files resource name lock flag w w1 t :
  resource !! "path" = Some (JStr name) ->
  resource !! "lock" = Some lock ->
  path_exists (resource_path name) w = (Return true, w1) ->
  (jtruthy lock = false ->
   @sync_entry _ (traced H) resource flag (w, t) = (Return flag, (w1, t)))
  /\ (forall data w2,
        jtruthy lock = true ->
        read_bytes (resource_path name) w1 = (Return data, w2) ->
        resource !! "hash" = Some (JStr (md5_hex data)) ->
        @sync_entry _ (traced H) resource flag (w, t)
        = (Return flag, (w2, t)))
  /\ (forall data hash w2 w3 w4 w5 e,
        jtruthy lock = true ->
        read_bytes (resource_path name) w1 = (Return data, w2) ->
        resource !! "hash" = Some hash ->
        str_eq (md5_hex data) hash = false ->
        unlink (resource_path name) w2 = (Return (), w3) ->
        download (github_proxy +:+ resource_url +:+ name)
          (resource_path name)
          (exclude_json name) w3
        = (Raise e, w4) ->
        is_exception e = true ->
        log_warning (msg_failed name) w4 = (Return (), w5) ->
        @sync_entry _ (traced H) resource flag (w, t)
        = (Return true,
           (w5, t ++ [Unlink (resource_path name);
                      Download (github_proxy +:+ resource_url +:+ name)
                        (resource_path name)
                        (exclude_json name);
                      Warning (msg_failed name)]))).
Proof.
  intros Hpath Hlock Hexists.
  unfold sync_entry, keep_file, fetch_file, try_except, eff_bind, eff_ret,
    lift, getitem.
  rewrite Hpath, Hlock. cbn. unfold noted, unnoted. cbn. rewrite Hexists.
  split; [|split].
  - by intros ->.
  - intros data w2 Htrue Hread Hhash. rewrite Htrue. cbn.
    rewrite Hread, Hhash. cbn. by rewrite bool_decide_eq_true_2.
  - intros data hash w2 w3 w4 w5 e Htrue Hread Hhash Hne Hunlink Hdown He
      Hwarn.
    rewrite Htrue. cbn. rewrite Hread, Hhash. cbn. rewrite Hne. cbn.
    rewrite Hunlink. cbn. rewrite Hdown. cbn. rewrite He, Hwarn. cbn.
    by rewrite <- !app_assoc.
Qed.
End resource_facts.

Lemma check_resource_trace_witness :
  let run :=
    @Resource.check_resource _ (Resource.traced offline_host)
      (stale_disk, []) in
  run.2.1 = {[ "resources/icon/a.png" := "old-a" ]}
  /\ run.2.2
     = [Resource.Info Resource.msg_start;
        Resource.Unlink "resources/data/b.json";
        Resource.Download
          ("https://ghproxy.com/" +:+ Resource.resource_url +:+ "data/b.json")
          "resources/data/b.json" false;
        Resource.Warning (Resource.msg_failed "data/b.json");
        Resource.Info Resource.msg_done]
  /\ (run.2.2 = [Resource.Info Resource.msg_start;
                 Resource.Info Resource.msg_no_list]
      \/ exists w1 w2 resource_list blocks,
           @Resource.fetch_list _ offline_host
             (@Resource.github_proxy _ offline_host +:+ Resource.manifest_url)
             w1
           = (Return resource_list, w2)
           /\ Forall2 (fun resource block =>
                         exists name,
                           resource !! "path" = Some (Resource.JStr name)
                           /\ @Resource.entry_block _ offline_host name block)
                resource_list blocks
           /\ run.2.2
              = Resource.Info Resource.msg_start :: concat blocks
                ++ [Resource.Info
                      (if existsb Resource.busy blocks
                       then Resource.msg_done else Resource.msg_intact)]).
Proof.
  intros run. split; [by vm_compute|]. split; [by vm_compute|].
  apply (check_resource_trace offline_host stale_disk run.2.1 run.2.2).
  by vm_compute.
Defined.

Lemma check_resource_outlives_the_network_witness :
  (@Resource.check_resource _ offline_host stale_disk).1 = Return ().
Proof.
  apply (check_resource_outlives_the_network offline_host).
  - reflexivity.
  - reflexivity.
  - intros path files. eexists. reflexivity.
  - intros path files files1 [= Hfound <-]. cbn.
    apply bool_decide_eq_true in Hfound as [data ->]. by exists data.
  - reflexivity.
  - intros url files e files'. discriminate.
  - intros url path b files e files' [= <- _]. reflexivity.
  - intros files e files'. discriminate.
  - intros url files resource_list files' [= <- _].
    repeat constructor; try (eexists; reflexivity).
Defined.

Lemma entry_without_path_raises_key_error_witness :
  @Resource.check_resource _
    (disk_host (Return [manifest_entry "icon/a.png" false "h-a";
                        {[ "lock" := Resource.JBool true ]};
                        manifest_entry "data/b.json" true "h-b"])
       (fun _ => None) (fun data => data))
    stale_disk
  = (Raise KeyError, stale_disk).
Proof.
  apply (entry_without_path_raises_key_error
           (disk_host (Return [manifest_entry "icon/a.png" false "h-a";
                               {[ "lock" := Resource.JBool true ]};
                               manifest_entry "data/b.json" true "h-b"])
              (fun _ => None) (fun data => data))
           [manifest_entry "icon/a.png" false "h-a"]
           {[ "lock" := Resource.JBool true ]}
           [manifest_entry "data/b.json" true "h-b"]
           false stale_disk stale_disk stale_disk stale_disk);
    reflexivity.
Defined.

Lemma kept_and_replaced_files_witness :
  @Resource.sync_entry _ (Resource.traced offline_host)
    (manifest_entry "icon/a.png" false "h-a") false (stale_disk, [])
  = (Return false, (stale_disk, []))
  /\ @Resource.sync_entry _ (Resource.traced offline_host)
       (manifest_entry "data/b.json" true "h-b") false (stale_disk, [])
     = (Return true,
        (delete "resources/data/b.json" stale_disk,
         [] ++ [Resource.Unlink "resources/data/b.json";
                Resource.Download
                  ("https://ghproxy.com/" +:+ Resource.resource_url
                   +:+ "data/b.json")
                  "resources/data/b.json" false;
                Resource.Warning (Resource.msg_failed "data/b.json")])).
Proof.
  split.
  - apply (kept_and_replaced_files offline_host
             (manifest_entry "icon/a.png" false "h-a") "icon/a.png"
             (Resource.JBool false) false stale_disk stale_disk []);
      reflexivity.
  - destruct (kept_and_replaced_files offline_host
                (manifest_entry "data/b.json" true "h-b") "data/b.json"
                (Resource.JBool true) false stale_disk stale_disk []
                eq_refl eq_refl eq_refl) as (_ & _ & Hreplaced).
    apply (Hreplaced "old-b" (Resource.JStr "h-b") stale_disk
             (delete "resources/data/b.json" stale_disk)
             (delete "resources/data/b.json" stale_disk)
             (delete "resources/data/b.json" stale_disk)
             (Failure "ReadTimeout"));
      reflexivity.
Defined.

(** ** [check_resource]: the file name's last part *)
Section last_part_facts.
Import Resource.

Lemma append_cons c s t : String c s +:+ t = String c (s +:+ t).
Proof. reflexivity. Qed.

Lemma append_empty_r s : s +:+ "" = s.
Proof. induction s as [|c s IH]; [done|]. by rewrite append_cons, IH. Qed.

Lemma app_snoc_cons cur c s : (cur +:+ String c "") +:+ s = cur +:+ String c s.
Proof.
  induction cur as [|a cur IH]; [done|]. by rewrite !append_cons, IH.
Qed.

Lemma last_part_no_dot s cur :
  has_dot s = false -> last_part s cur = cur +:+ s.
Proof.
  revert cur. induction s as [|c s IH]; intros cur; cbn.
  - intros _. by rewrite append_empty_r.
  - case_decide; [done|]. intros Hs. rewrite IH by done. apply app_snoc_cons.
Qed.

Lemma last_part_after_dot pre post cur :
  has_dot post = false -> last_part (pre +:+ "." +:+ post) cur = post.
Proof.
  intros Hpost. revert cur. induction pre as [|c pre IH]; intros cur.
  - change ("" +:+ "." +:+ post) with (String "."%char post).
    cbn. by rewrite last_part_no_dot.
  - change (String c pre +:+ "." +:+ post)
      with (String c (pre +:+ "." +:+ post)).
    cbn. case_decide; apply IH.
Qed.

Lemma cut_at_last_dot s :
  has_dot s = false
  \/ exists pre post, s = pre +:+ "." +:+ post /\ has_dot post = false.
Proof.
  induction s as [|c s IH]; [by left|].
  cbn. destruct IH as [Hs|(pre & post & -> & Hpost)].
  - case_decide as Hc; [|by left].
    right. exists "", s. subst c. by split.
  - right. exists (String c pre), post. by split.
Qed.

(** X25: [name.split('.')[-1]] is the whole name when it has no dot and
    what follows its last dot otherwise, so the download is told not to
    exclude JSON exactly for a name that ends in [.json] or is [json]
    itself. *)
Theorem exclude_json_by_last_part name :
  (has_dot name = false -> last_part name "" = name)
  /\ (forall stem ext, has_dot ext = false ->
        last_part (stem +:+ "." +:+ ext) "" = ext)
  /\ (exclude_json name = false
      <-> name = "json" \/ exists stem, name = stem +:+ ".json").
Proof.
  split; [|split].
  - intros Hn. by rewrite last_part_no_dot.
  - intros stem ext. apply last_part_after_dot.
  - unfold exclude_json. rewrite negb_false_iff, bool_decide_eq_true. split.
    + destruct (cut_at_last_dot name) as [Hn|(pre & post & -> & Hpost)].
      * rewrite last_part_no_dot by done. by left.
      * rewrite last_part_after_dot by done. intros ->. right. by exists pre.
    + intros [->|[stem ->]]; [done|].
      by apply (last_part_after_dot stem "json" "").
Qed.
End last_part_facts.

Lemma exclude_json_by_last_part_witness :
  Resource.last_part "Noto.Sans.ttf" "" = "ttf"
  /\ Resource.last_part "LICENSE" "" = "LICENSE".
Proof.
  destruct (exclude_json_by_last_part "LICENSE") as (Hwhole & _).
  destruct (exclude_json_by_last_part "Noto.Sans.ttf") as (_ & Hlast & _).
  split; [apply (Hlast "Noto.Sans" "ttf") | apply Hwhole]; reflexivity.
Defined.
